(** * A shallow embedding of the 6502 CPU core of NES_emu

    The development follows the C sources: [memory.c] (the flat memory
    array), the bus facade, and the CPU core with its flag, stack and fetch
    helpers and the [cpu_execute] dispatch loop.  The C code mutates a
    [CPU] structure through a pointer and a process-wide memory array; here
    both live in one [machine] record that is threaded through a small state
    monad, so that each C statement becomes one monadic step. *)

From Stdlib Require Import ZArith Bool List Lia.
Import ListNotations.
Local Open Scope Z_scope.

(** ** Machine integers *)

(** Modelled from the spec: [types.h] is not among the sources.  The spec
    gives [Byte] as an unsigned 8-bit value and [Word] as an unsigned 16-bit
    value; the test harness agrees ([(Byte)(sp_before - 1)], [(int8_t)0xF0]).
    Both are carried by [Z], and every C conversion to one of these types is
    written out as a reduction modulo its size. *)
Definition Byte := Z.
Definition Word := Z.

Definition to_Byte (v : Z) : Byte := v mod 256.
Definition to_Word (v : Z) : Word := v mod 65536.

(** Conversion of a byte to [int8_t] (two's complement). *)
Definition to_int8 (v : Z) : Z :=
  let b := to_Byte v in if b <? 128 then b else b - 256.

Definition is_Byte (v : Z) : Prop := 0 <= v < 256.
Definition is_Word (v : Z) : Prop := 0 <= v < 65536.

(** ** CPU state (cpu.h) *)

Record Regs := mkRegs { A : Byte; X : Byte; Y : Byte }.

Module Flags.
Inductive Flags := C | Z | I | D | B | U | V | N.

(** The enumerators' values: the bit position of each flag in [P]. *)
Definition bit (f : Flags) : BinNums.Z :=
  match f with
  | C => 0 | Z => 1 | I => 2 | D => 3 | B => 4 | U => 5 | V => 6 | N => 7
  end.
End Flags.

Record CPU := mkCPU { PC : Word; SP : Byte; regs : Regs; flags : Byte }.

(** ** The machine: CPU, memory array and a history of bus accesses *)

Inductive bus_event :=
| BusRead (addr : Word)
| BusWrite (addr : Word) (data : Byte).

(** [mem] is the static array [mem[MEM_SIZE]] of memory.c, indexed by the
    address.  [bus_log] is a ghost field: the C code keeps no such history;
    it records every call of [bus_read] and [bus_write] (newest first) so that
    statements about which addresses a routine touches can be written. *)
Record machine := mkMachine {
  cpu : CPU;
  mem : Word -> Byte;
  bus_log : list bus_event
}.

Definition MEM_SIZE : Z := 64 * 1024.

(** ** State monad *)

Definition M (T : Type) : Type := machine -> T * machine.

Definition ret {T} (x : T) : M T := fun s => (x, s).

Definition bind {T R} (c : M T) (k : T -> M R) : M R :=
  fun s => let (x, s') := c s in k x s'.

Notation "x <- c ;; k" := (bind c (fun x => k))
  (at level 61, c at next level, right associativity).
Notation "c ;; k" := (bind c (fun _ => k))
  (at level 61, right associativity).

(** Reading and assigning the fields of [*cpu].  An assignment converts its
    right-hand side to the type of the field. *)
Definition rd {T} (f : CPU -> T) : M T := fun s => (f (cpu s), s).

Definition upd_cpu (f : CPU -> CPU) : M unit :=
  fun s => (tt, mkMachine (f (cpu s)) (mem s) (bus_log s)).

Definition wr_PC (v : Z) : M unit :=
  upd_cpu (fun c => mkCPU (to_Word v) (SP c) (regs c) (flags c)).
Definition wr_SP (v : Z) : M unit :=
  upd_cpu (fun c => mkCPU (PC c) (to_Byte v) (regs c) (flags c)).
Definition wr_flags (v : Z) : M unit :=
  upd_cpu (fun c => mkCPU (PC c) (SP c) (regs c) (to_Byte v)).
Definition wr_A (v : Z) : M unit :=
  upd_cpu (fun c => mkCPU (PC c) (SP c)
                      (mkRegs (to_Byte v) (X (regs c)) (Y (regs c))) (flags c)).
Definition wr_X (v : Z) : M unit :=
  upd_cpu (fun c => mkCPU (PC c) (SP c)
                      (mkRegs (A (regs c)) (to_Byte v) (Y (regs c))) (flags c)).
Definition wr_Y (v : Z) : M unit :=
  upd_cpu (fun c => mkCPU (PC c) (SP c)
                      (mkRegs (A (regs c)) (X (regs c)) (to_Byte v)) (flags c)).

Definition rd_A : M Byte := rd (fun c => A (regs c)).
Definition rd_X : M Byte := rd (fun c => X (regs c)).
Definition rd_Y : M Byte := rd (fun c => Y (regs c)).

(** ** memory.c *)

Definition mem_reset : M unit :=
  fun s => (tt, mkMachine (cpu s) (fun _ => 0) (bus_log s)).

Definition mem_read (addr : Z) : M Byte :=
  let addr := to_Word addr in
  fun s => (mem s addr, s).

Definition mem_write (addr data : Z) : M unit :=
  let addr := to_Word addr in
  let data := to_Byte data in
  fun s => (tt, mkMachine (cpu s)
                  (fun a => if a =? addr then data else mem s a)
                  (bus_log s)).

(** ** The bus *)

Definition log_event (e : bus_event) : M unit :=
  fun s => (tt, mkMachine (cpu s) (mem s) (e :: bus_log s)).

Definition bus_reset : M unit := mem_reset.

Definition MEM_START : Z := 0x0000.
Definition MEM_END : Z := 0xFFFF.

Definition bus_read (addr : Z) : M Byte :=
  let addr := to_Word addr in
  log_event (BusRead addr);;
  if (MEM_START <=? addr) && (addr <=? MEM_END) then mem_read addr
  else ret 0x00.

Definition bus_write (addr data : Z) : M unit :=
  let addr := to_Word addr in
  let data := to_Byte data in
  log_event (BusWrite addr data);;
  if (MEM_START <=? addr) && (addr <=? MEM_END) then mem_write addr data
  else ret tt.

(** ** The CPU core: reset, stack, flags, program fetch *)

Definition cpu_reset : M unit :=
  wr_PC 0x01FF;;
  wr_SP 0xFF;;
  wr_A 0x00;;
  wr_X 0x00;;
  wr_Y 0x00;;
  (*         NVUBDIZC: 0b00100100 *)
  wr_flags 0x24;;
  bus_reset.

Definition stack_push (value : Z) : M unit :=
  let value := to_Byte value in
  sp <- rd SP;;
  bus_write (0x100 + sp) value;;
  sp <- rd SP;;
  wr_SP (sp - 1).

Definition stack_pop : M Byte :=
  sp <- rd SP;;
  wr_SP (sp + 1);;
  sp <- rd SP;;
  bus_read (0x100 + sp).

Definition cpu_read_flag (flag : Flags.Flags) : M Byte :=
  f <- rd flags;;
  ret (to_Byte (Z.land (Z.shiftr f (Flags.bit flag)) 0x01)).

Definition cpu_set_flag (flag : Flags.Flags) (value : Z) : M unit :=
  let value := to_Byte value in
  let mask := to_Byte (Z.shiftl 0x01 (Flags.bit flag)) in
  (if value =? 0 then
     f <- rd flags;; wr_flags (Z.land f (Z.lnot mask))
   else
     f <- rd flags;; wr_flags (Z.lor f mask));;
  (* force U on 1 *)
  let mask := to_Byte (Z.shiftl 0x01 (Flags.bit Flags.U)) in
  f <- rd flags;; wr_flags (Z.lor f mask).

Definition cpu_toggle_flag (flag : Flags.Flags) : M unit :=
  let mask := to_Byte (Z.shiftl 0x01 (Flags.bit flag)) in
  f <- rd flags;; wr_flags (Z.lxor f mask).

Definition fetch_program_byte : M Byte :=
  pc <- rd PC;;
  data <- bus_read pc;;
  pc <- rd PC;;
  wr_PC (pc + 1);;
  ret data.

Definition fetch_program_word : M Word :=
  data_lo <- fetch_program_byte;;
  data_hi <- fetch_program_byte;;
  let data := to_Word (Z.lor data_lo (Z.shiftl data_hi 8)) in
  ret data.

(** ** opcodes.h (the header of the core that has ASL, BIT, BRK and the
    branches) *)

Definition OPC_ADC_IM : Z := 0x69.
Definition OPC_ADC_ZP : Z := 0x65.
Definition OPC_ADC_ZPX : Z := 0x75.
Definition OPC_ADC_ABS : Z := 0x6D.
Definition OPC_ADC_ABSX : Z := 0x7D.
Definition OPC_ADC_ABSY : Z := 0x79.
Definition OPC_ADC_INDX : Z := 0x61.
Definition OPC_ADC_INDY : Z := 0x71.

Definition OPC_AND_IM : Z := 0x29.
Definition OPC_AND_ZP : Z := 0x25.
Definition OPC_AND_ZPX : Z := 0x35.
Definition OPC_AND_ABS : Z := 0x2D.
Definition OPC_AND_ABSX : Z := 0x3D.
Definition OPC_AND_ABSY : Z := 0x39.
Definition OPC_AND_INDX : Z := 0x21.
Definition OPC_AND_INDY : Z := 0x31.

Definition OPC_ASL_ACC : Z := 0x0A.
Definition OPC_ASL_ZP : Z := 0x1A.
Definition OPC_ASL_ZPX : Z := 0x16.
Definition OPC_ASL_ABS : Z := 0x0E.
Definition OPC_ASL_ABSX : Z := 0x1E.

Definition OPC_LDA_IM : Z := 0xA9.
Definition OPC_LDA_ZP : Z := 0xA5.
Definition OPC_LDA_ZPX : Z := 0xB5.
Definition OPC_LDA_ABS : Z := 0xAD.
Definition OPC_LDA_ABSX : Z := 0xBD.
Definition OPC_LDA_ABSY : Z := 0xB9.
Definition OPC_LDA_INDX : Z := 0xA1.
Definition OPC_LDA_INDY : Z := 0xB1.

Definition OPC_STA_ZP : Z := 0x85.
Definition OPC_STA_ZPX : Z := 0x95.
Definition OPC_STA_ABS : Z := 0x8D.
Definition OPC_STA_ABSX : Z := 0x9D.
Definition OPC_STA_ABSY : Z := 0x99.
Definition OPC_STA_INDX : Z := 0x81.
Definition OPC_STA_INDY : Z := 0x91.

Definition OPC_BCC_REL : Z := 0x90.
Definition OPC_BCS_REL : Z := 0xB0.
Definition OPC_BEQ_REL : Z := 0xF0.
Definition OPC_BMI_REL : Z := 0x30.
Definition OPC_BNE_REL : Z := 0xD0.
Definition OPC_BPL_REL : Z := 0x10.
Definition OPC_BVC_REL : Z := 0x50.
Definition OPC_BVS_REL : Z := 0x70.

Definition OPC_BIT_ZP : Z := 0x24.
Definition OPC_BIT_ABS : Z := 0x2C.

Definition OPC_BRK_IMP : Z := 0x00.

Definition OPC_CLC_IM : Z := 0x18.
Definition OPC_CLD_IM : Z := 0xD8.
Definition OPC_CLI_IM : Z := 0x58.
Definition OPC_CLV_IM : Z := 0xB8.

(** ** Convenience routines of the CPU core *)

(** A C comparison yields the [int] 0 or 1. *)
Definition c_bool (b : bool) : Z := Z.b2z b.

(** The routines that receive [Byte *cycles] return the new budget. *)
Definition indexed_LDA_ABS (cycles : Byte) (index : Z) : M Byte :=
  let index := to_Byte index in
  base <- fetch_program_word;;
  let addr := to_Word (base + index) in
  (* Page crossing penalty *)
  let extra_cycle :=
    to_Byte (c_bool (negb (Z.land addr 0xFF00 =? Z.land base 0xFF00))) in
  v <- bus_read addr;;
  wr_A v;;
  ret (to_Byte (cycles - (4 + extra_cycle))).

Definition indexed_STA_ABS (index : Z) : M unit :=
  let index := to_Byte index in
  base <- fetch_program_word;;
  let addr := to_Word (base + index) in
  a <- rd_A;;
  bus_write addr a.

Definition indexed_AND_ABS (cycles : Byte) (index : Z) : M Byte :=
  let index := to_Byte index in
  base <- fetch_program_word;;
  let addr := to_Word (base + index) in
  let extra_cycle :=
    to_Byte (c_bool (negb (Z.land addr 0xFF00 =? Z.land base 0xFF00))) in
  a <- rd_A;;
  v <- bus_read addr;;
  wr_A (Z.land a v);;
  ret (to_Byte (cycles - (4 + extra_cycle))).

Definition branch (cycles : Byte) (flag carry_val : Z) : M Byte :=
  let flag := to_Byte flag in
  let carry_val := to_Byte carry_val in
  operand <- fetch_program_byte;;
  let signed_offset := to_int8 operand in
  let opc_cycles := 2 in
  opc_cycles <-
    (if flag =? carry_val then
       pc <- rd PC;;
       let new_PC := to_Word (pc + signed_offset) in
       let opc_cycles := to_Byte (opc_cycles + 1) in
       pc <- rd PC;;
       let extra_cycle :=
         to_Byte (c_bool (negb (Z.land pc 0xFF00 =? Z.land new_PC 0xFF00))) in
       let opc_cycles := to_Byte (opc_cycles + extra_cycle) in
       wr_PC new_PC;;
       ret opc_cycles
     else
       ret opc_cycles);;
  ret (to_Byte (cycles - opc_cycles)).

Definition set_NZ_flags : M unit :=
  a <- rd_A;;
  cpu_set_flag Flags.Z (c_bool (a =? 0));;
  a <- rd_A;;
  cpu_set_flag Flags.N (Z.land (Z.shiftr a 7) 1).

Definition read_bit (value position : Z) : Byte :=
  let value := to_Byte value in
  let position := to_Byte position in
  to_Byte (Z.land (Z.shiftr value position) 0x01).

(** ** The cases of the [switch] in [cpu_execute]

    Each case takes the budget on entry and returns the budget it leaves.
    [sub_cycles c n] is the statement [cycles -= n] on the [Byte] budget. *)

Definition sub_cycles (cycles n : Z) : Byte := to_Byte (cycles - n).

(**  --- LDA --- *)

Definition case_LDA_IM (cycles : Byte) : M Byte :=
  operand <- fetch_program_byte;;
  wr_A operand;;
  set_NZ_flags;;
  ret (sub_cycles cycles 2).

Definition case_LDA_ZP (cycles : Byte) : M Byte :=
  operand <- fetch_program_byte;;
  zero_page_value <- bus_read (Z.land operand 0xFF);;
  wr_A zero_page_value;;
  set_NZ_flags;;
  ret (sub_cycles cycles 3).

Definition case_LDA_ZPX (cycles : Byte) : M Byte :=
  operand <- fetch_program_byte;;
  x <- rd_X;;
  let addr := to_Byte (operand + x) in  (* Let it wrap naturally *)
  v <- bus_read (Z.land addr 0xFF);;
  wr_A v;;
  set_NZ_flags;;
  ret (sub_cycles cycles 4).

Definition case_LDA_ABS (cycles : Byte) : M Byte :=
  operand <- fetch_program_word;;
  v <- bus_read operand;;
  wr_A v;;
  set_NZ_flags;;
  ret (sub_cycles cycles 4).

Definition case_LDA_ABSX (cycles : Byte) : M Byte :=
  x <- rd_X;;
  cycles <- indexed_LDA_ABS cycles x;;
  set_NZ_flags;;
  ret cycles.

Definition case_LDA_ABSY (cycles : Byte) : M Byte :=
  y <- rd_Y;;
  cycles <- indexed_LDA_ABS cycles y;;
  set_NZ_flags;;
  ret cycles.

Definition case_LDA_INDX (cycles : Byte) : M Byte :=
  operand <- fetch_program_byte;;
  x <- rd_X;;
  let wrapped := to_Byte (Z.land (operand + x) 0xFF) in
  lo <- bus_read (Z.land wrapped 0xFF);;
  hi <- bus_read (Z.land (wrapped + 1) 0xFF);;
  let addr := to_Word (Z.lor lo (Z.shiftl hi 8)) in
  v <- bus_read addr;;
  wr_A v;;
  set_NZ_flags;;
  ret (sub_cycles cycles 5).

Definition case_LDA_INDY (cycles : Byte) : M Byte :=
  operand <- fetch_program_byte;;
  lo <- bus_read operand;;
  hi <- bus_read (Z.land (operand + 1) 0xFF);;
  let base := to_Word (Z.lor lo (Z.shiftl hi 8)) in
  y <- rd_Y;;
  let addr := to_Word (base + y) in
  let extra_cycle :=
    to_Byte (c_bool (negb (Z.land addr 0xFF00 =? Z.land base 0xFF00))) in
  v <- bus_read addr;;
  wr_A v;;
  set_NZ_flags;;
  ret (sub_cycles cycles (5 + extra_cycle)).

(**  --- STA --- *)

Definition case_STA_ZP (cycles : Byte) : M Byte :=
  operand <- fetch_program_byte;;
  a <- rd_A;;
  bus_write operand a;;
  ret (sub_cycles cycles 3).

Definition case_STA_ZPX (cycles : Byte) : M Byte :=
  operand <- fetch_program_byte;;
  x <- rd_X;;
  let addr := to_Byte (Z.land (operand + x) 0xFF) in
  a <- rd_A;;
  bus_write addr a;;
  ret (sub_cycles cycles 4).

Definition case_STA_ABS (cycles : Byte) : M Byte :=
  operand <- fetch_program_word;;
  a <- rd_A;;
  bus_write operand a;;
  ret (sub_cycles cycles 4).

Definition case_STA_ABSX (cycles : Byte) : M Byte :=
  x <- rd_X;;
  indexed_STA_ABS x;;
  ret (sub_cycles cycles 5).

Definition case_STA_ABSY (cycles : Byte) : M Byte :=
  y <- rd_Y;;
  indexed_STA_ABS y;;
  ret (sub_cycles cycles 5).

Definition case_STA_INDX (cycles : Byte) : M Byte :=
  operand <- fetch_program_byte;;
  x <- rd_X;;
  let wrapped := to_Byte (Z.land (operand + x) 0xFF) in
  lo <- bus_read (Z.land wrapped 0xFF);;
  hi <- bus_read (Z.land (wrapped + 1) 0xFF);;
  let addr := to_Word (Z.lor lo (Z.shiftl hi 8)) in
  a <- rd_A;;
  bus_write addr a;;
  ret (sub_cycles cycles 6).

Definition case_STA_INDY (cycles : Byte) : M Byte :=
  operand <- fetch_program_byte;;
  lo <- bus_read (Z.land operand 0xFF);;
  hi <- bus_read (Z.land (operand + 1) 0xFF);;
  let base := to_Word (Z.lor lo (Z.shiftl hi 8)) in
  y <- rd_Y;;
  let addr := to_Word (base + y) in
  a <- rd_A;;
  bus_write addr a;;
  ret (sub_cycles cycles 6).

(** --- ADC --- *)

Definition case_ADC_IM (cycles : Byte) : M Byte :=
  operand <- fetch_program_byte;;
  a <- rd_A;;
  c <- cpu_read_flag Flags.C;;
  let result := to_Word (a + operand + c) in   (* do math on word *)
  set_NZ_flags;;
  cpu_set_flag Flags.C (c_bool (result >? 0xFF));;   (* detect a carry out *)
  a <- rd_A;;
  cpu_set_flag Flags.V
    (c_bool (negb (Z.land (Z.land (Z.lxor a result) (Z.lxor operand result))
                          0x80 =? 0)));;
  wr_A (Z.land result 0xFF);;   (* store truncated result *)
  ret (sub_cycles cycles 2).

(** --- AND --- *)

Definition case_AND_IM (cycles : Byte) : M Byte :=
  operand <- fetch_program_byte;;
  a <- rd_A;;
  wr_A (Z.land a operand);;
  set_NZ_flags;;
  ret (sub_cycles cycles 2).

Definition case_AND_ZP (cycles : Byte) : M Byte :=
  operand <- fetch_program_byte;;
  zero_page_value <- bus_read (Z.land operand 0xFF);;
  a <- rd_A;;
  wr_A (Z.land a zero_page_value);;
  set_NZ_flags;;
  ret (sub_cycles cycles 3).

Definition case_AND_ZPX (cycles : Byte) : M Byte :=
  operand <- fetch_program_byte;;
  x <- rd_X;;
  let zero_page_addr := to_Byte (operand + x) in  (* Let it wrap naturally *)
  zero_page_value <- bus_read (Z.land zero_page_addr 0xFF);;
  a <- rd_A;;
  wr_A (Z.land a zero_page_value);;
  set_NZ_flags;;
  ret (sub_cycles cycles 4).

Definition case_AND_ABS (cycles : Byte) : M Byte :=
  operand <- fetch_program_word;;
  a <- rd_A;;
  v <- bus_read operand;;
  wr_A (Z.land a v);;
  set_NZ_flags;;
  ret (sub_cycles cycles 4).

Definition case_AND_ABSX (cycles : Byte) : M Byte :=
  x <- rd_X;;
  cycles <- indexed_AND_ABS cycles x;;
  set_NZ_flags;;
  ret cycles.

Definition case_AND_ABSY (cycles : Byte) : M Byte :=
  y <- rd_Y;;
  cycles <- indexed_AND_ABS cycles y;;
  set_NZ_flags;;
  ret cycles.

Definition case_AND_INDX (cycles : Byte) : M Byte :=
  operand <- fetch_program_byte;;
  x <- rd_X;;
  let wrapped := to_Byte (Z.land (operand + x) 0xFF) in
  lo <- bus_read (Z.land wrapped 0xFF);;
  hi <- bus_read (Z.land (wrapped + 1) 0xFF);;
  let addr := to_Word (Z.lor lo (Z.shiftl hi 8)) in
  a <- rd_A;;
  v <- bus_read addr;;
  wr_A (Z.land a v);;
  set_NZ_flags;;
  ret (sub_cycles cycles 6).

Definition case_AND_INDY (cycles : Byte) : M Byte :=
  operand <- fetch_program_byte;;
  lo <- bus_read operand;;
  hi <- bus_read (Z.land (operand + 1) 0xFF);;
  let base := to_Word (Z.lor lo (Z.shiftl hi 8)) in
  y <- rd_Y;;
  let addr := to_Word (base + y) in
  let extra_cycle :=
    to_Byte (c_bool (negb (Z.land addr 0xFF00 =? Z.land base 0xFF00))) in
  a <- rd_A;;
  v <- bus_read addr;;
  wr_A (Z.land a v);;
  set_NZ_flags;;
  ret (sub_cycles cycles (5 + extra_cycle)).

(** --- ASL --- *)

(** The three flag writes shared by the memory forms of ASL. *)
Definition asl_mem_flags (shifted_value : Word) : M unit :=
  cpu_set_flag Flags.Z (c_bool (shifted_value =? 0));;
  cpu_set_flag Flags.N
    (Z.land (Z.shiftr (Z.land shifted_value 0xFF) 7) 1);;
  cpu_set_flag Flags.C (c_bool (shifted_value >? 0xFF)).

Definition case_ASL_ACC (cycles : Byte) : M Byte :=
  a <- rd_A;;
  let shifted_value := to_Word (Z.shiftl a 1) in
  wr_A (Z.land shifted_value 0xFF);;
  set_NZ_flags;;
  cpu_set_flag Flags.C (c_bool (shifted_value >? 0xFF));;
  ret (sub_cycles cycles 2).

Definition case_ASL_ZP (cycles : Byte) : M Byte :=
  operand <- fetch_program_byte;;
  zero_page_value <- bus_read (Z.land operand 0xFF);;
  let shifted_value := to_Word (Z.shiftl zero_page_value 1) in
  bus_write operand (Z.land shifted_value 0xFF);;
  asl_mem_flags shifted_value;;
  ret (sub_cycles cycles 5).

(** [addr] is computed and then not used: the read and the write-back both
    go to [operand]. *)
Definition case_ASL_ZPX (cycles : Byte) : M Byte :=
  operand <- fetch_program_byte;;
  x <- rd_X;;
  let addr := to_Byte (operand + x) in
  zero_page_value <- bus_read (Z.land operand 0xFF);;
  let shifted_value := to_Word (Z.shiftl zero_page_value 1) in
  bus_write operand (Z.land shifted_value 0xFF);;
  asl_mem_flags shifted_value;;
  ret (sub_cycles cycles 6).

Definition case_ASL_ABS (cycles : Byte) : M Byte :=
  operand <- fetch_program_word;;
  abs_value <- bus_read operand;;
  let shifted_value := to_Word (Z.shiftl abs_value 1) in
  bus_write operand (Z.land shifted_value 0xFF);;
  asl_mem_flags shifted_value;;
  ret (sub_cycles cycles 6).

Definition case_ASL_ABSX (cycles : Byte) : M Byte :=
  operand <- fetch_program_word;;
  x <- rd_X;;
  let addr := to_Word (operand + x) in
  abs_value <- bus_read addr;;
  let shifted_value := to_Word (Z.shiftl abs_value 1) in
  bus_write addr (Z.land shifted_value 0xFF);;
  asl_mem_flags shifted_value;;
  ret (sub_cycles cycles 7).

(** --- BIT --- *)

Definition case_BIT_ZP (cycles : Byte) : M Byte :=
  operand <- fetch_program_byte;;
  zero_page_value <- bus_read (Z.land operand 0xFF);;
  a <- rd_A;;
  cpu_set_flag Flags.Z (c_bool (Z.land a zero_page_value =? 0));;
  let N_val := read_bit zero_page_value 7 in
  cpu_set_flag Flags.N N_val;;
  let V_val := read_bit zero_page_value 6 in
  cpu_set_flag Flags.V V_val;;
  ret (sub_cycles cycles 3).

Definition case_BIT_ABS (cycles : Byte) : M Byte :=
  operand <- fetch_program_word;;
  abs_value <- bus_read operand;;
  a <- rd_A;;
  cpu_set_flag Flags.Z (c_bool (Z.land a abs_value =? 0));;
  let N_val := read_bit abs_value 7 in
  cpu_set_flag Flags.N N_val;;
  let V_val := read_bit abs_value 6 in
  cpu_set_flag Flags.V V_val;;
  ret (sub_cycles cycles 4).

(** --- BRANCHING ---

    [case OPC_BCC_REL] and [case OPC_BCS_REL] end in [break].  The six cases
    from [OPC_BNE_REL] to [OPC_BVS_REL] have no [break]: control falls from
    each into the next and from [OPC_BVS_REL] into [case OPC_BIT_ZP], whose
    [break] ends the chain.  Every case below is therefore its own body
    followed by the case the C compiler places after it. *)

Definition case_BCC_REL (cycles : Byte) : M Byte :=
  f <- cpu_read_flag Flags.C;;
  branch cycles f 0.

Definition case_BCS_REL (cycles : Byte) : M Byte :=
  f <- cpu_read_flag Flags.C;;
  branch cycles f 1.

Definition case_BVS_REL (cycles : Byte) : M Byte :=
  f <- cpu_read_flag Flags.V;;
  cycles <- branch cycles f 1;;
  case_BIT_ZP cycles.

Definition case_BVC_REL (cycles : Byte) : M Byte :=
  f <- cpu_read_flag Flags.V;;
  cycles <- branch cycles f 0;;
  case_BVS_REL cycles.

Definition case_BMI_REL (cycles : Byte) : M Byte :=
  f <- cpu_read_flag Flags.N;;
  cycles <- branch cycles f 1;;
  case_BVC_REL cycles.

Definition case_BPL_REL (cycles : Byte) : M Byte :=
  f <- cpu_read_flag Flags.N;;
  cycles <- branch cycles f 0;;
  case_BMI_REL cycles.

Definition case_BEQ_REL (cycles : Byte) : M Byte :=
  f <- cpu_read_flag Flags.Z;;
  cycles <- branch cycles f 1;;
  case_BPL_REL cycles.

Definition case_BNE_REL (cycles : Byte) : M Byte :=
  f <- cpu_read_flag Flags.Z;;
  cycles <- branch cycles f 0;;
  case_BEQ_REL cycles.

(** --- BRK --- *)

Definition case_BRK_IMP (cycles : Byte) : M Byte :=
  pc <- rd PC;;
  let stack_PC := to_Word (pc + 2) in
  let stack_PC_lo := to_Byte (Z.land stack_PC 0xFF) in
  let stack_PC_hi := to_Byte (Z.land (Z.shiftr stack_PC 8) 0xFF) in
  (* Stack is LIFO so hi is first to get them right on pop *)
  stack_push stack_PC_hi;;
  stack_push stack_PC_lo;;
  cpu_set_flag Flags.I 1;;
  cpu_set_flag Flags.B 1;;
  f <- rd flags;;
  stack_push f;;
  cpu_set_flag Flags.B 0;;
  lo <- bus_read 0xFFFE;;
  hi <- bus_read 0xFFFF;;
  let addr := to_Word (Z.lor lo (Z.shiftl hi 8)) in
  wr_PC addr;;
  ret (sub_cycles cycles 7).

Definition case_default (cycles : Byte) : M Byte :=
  ret (sub_cycles cycles 1).

(** ** The dispatch loop *)

(** The [switch (opcode)]: the case labels in the order of the source. *)
Definition dispatch (opcode : Byte) (cycles : Byte) : M Byte :=
  if opcode =? OPC_LDA_IM then case_LDA_IM cycles
  else if opcode =? OPC_LDA_ZP then case_LDA_ZP cycles
  else if opcode =? OPC_LDA_ZPX then case_LDA_ZPX cycles
  else if opcode =? OPC_LDA_ABS then case_LDA_ABS cycles
  else if opcode =? OPC_LDA_ABSX then case_LDA_ABSX cycles
  else if opcode =? OPC_LDA_ABSY then case_LDA_ABSY cycles
  else if opcode =? OPC_LDA_INDX then case_LDA_INDX cycles
  else if opcode =? OPC_LDA_INDY then case_LDA_INDY cycles
  else if opcode =? OPC_STA_ZP then case_STA_ZP cycles
  else if opcode =? OPC_STA_ZPX then case_STA_ZPX cycles
  else if opcode =? OPC_STA_ABS then case_STA_ABS cycles
  else if opcode =? OPC_STA_ABSX then case_STA_ABSX cycles
  else if opcode =? OPC_STA_ABSY then case_STA_ABSY cycles
  else if opcode =? OPC_STA_INDX then case_STA_INDX cycles
  else if opcode =? OPC_STA_INDY then case_STA_INDY cycles
  else if opcode =? OPC_ADC_IM then case_ADC_IM cycles
  else if opcode =? OPC_AND_IM then case_AND_IM cycles
  else if opcode =? OPC_AND_ZP then case_AND_ZP cycles
  else if opcode =? OPC_AND_ZPX then case_AND_ZPX cycles
  else if opcode =? OPC_AND_ABS then case_AND_ABS cycles
  else if opcode =? OPC_AND_ABSX then case_AND_ABSX cycles
  else if opcode =? OPC_AND_ABSY then case_AND_ABSY cycles
  else if opcode =? OPC_AND_INDX then case_AND_INDX cycles
  else if opcode =? OPC_AND_INDY then case_AND_INDY cycles
  else if opcode =? OPC_ASL_ACC then case_ASL_ACC cycles
  else if opcode =? OPC_ASL_ZP then case_ASL_ZP cycles
  else if opcode =? OPC_ASL_ZPX then case_ASL_ZPX cycles
  else if opcode =? OPC_ASL_ABS then case_ASL_ABS cycles
  else if opcode =? OPC_ASL_ABSX then case_ASL_ABSX cycles
  else if opcode =? OPC_BCC_REL then case_BCC_REL cycles
  else if opcode =? OPC_BCS_REL then case_BCS_REL cycles
  else if opcode =? OPC_BNE_REL then case_BNE_REL cycles
  else if opcode =? OPC_BEQ_REL then case_BEQ_REL cycles
  else if opcode =? OPC_BPL_REL then case_BPL_REL cycles
  else if opcode =? OPC_BMI_REL then case_BMI_REL cycles
  else if opcode =? OPC_BVC_REL then case_BVC_REL cycles
  else if opcode =? OPC_BVS_REL then case_BVS_REL cycles
  else if opcode =? OPC_BIT_ZP then case_BIT_ZP cycles
  else if opcode =? OPC_BIT_ABS then case_BIT_ABS cycles
  else if opcode =? OPC_BRK_IMP then case_BRK_IMP cycles
  else case_default cycles.

(** One pass through the body of [while (cycles > 0)]. *)
Definition loop_body (cycles : Byte) : M Byte :=
  opcode <- fetch_program_byte;;
  dispatch opcode cycles.

(** The [while] loop.  The C loop has no bound, so the model takes a number
    of passes it may make: [None] means that the budget was still positive
    after [fuel] passes. *)
Fixpoint while_cycles (fuel : nat) (cycles : Byte) (s : machine)
  : option machine :=
  if cycles >? 0 then
    match fuel with
    | O => None
    | S fuel' =>
        let (cycles', s') := loop_body cycles s in
        while_cycles fuel' cycles' s'
    end
  else Some s.

(** [void cpu_execute(Byte cycles, CPU *cpu)]: the argument is converted to
    [Byte] on entry. *)
Definition cpu_execute (fuel : nat) (cycles : Z) (s : machine)
  : option machine :=
  while_cycles fuel (to_Byte cycles) s.

(** ** The earlier core (src/unnamed/part_000)

    The repository holds a second, smaller CPU core that knows only LDA, STA
    and ADC.  Its bus, flag and fetch routines are the ones above, word for
    word; its [cpu_reset] and its ADC case differ and are given here. *)
Module Part000.

Definition cpu_reset : M unit :=
  wr_PC 0x0100;;
  wr_SP 0x00FD;;
  wr_A 0x00;;
  wr_X 0x00;;
  wr_Y 0x00;;
  (*         NVUBDIZC: 0b00100100 *)
  wr_flags 0x24;;
  bus_reset.

Definition case_ADC_IM (cycles : Byte) : M Byte :=
  operand <- fetch_program_byte;;
  a <- rd_A;;
  c <- cpu_read_flag Flags.C;;
  let result := to_Word (a + operand + c) in
  cpu_set_flag Flags.C (c_bool (result >? 0xFF));;
  cpu_set_flag Flags.Z (c_bool (Z.land result 0xFF =? 0));;
  cpu_set_flag Flags.N (Z.land result 0x80);;
  a <- rd_A;;
  cpu_set_flag Flags.V
    (c_bool (negb (Z.land (Z.land (Z.lxor a result) (Z.lxor operand result))
                          0x80 =? 0)));;
  wr_A (Z.land result 0xFF);;
  ret (sub_cycles cycles 2).

(** The rest of the earlier core.  Its opcodes.h gives the LDA, STA and ADC
    opcodes the values they have above.  In its load cases the budget is
    charged before the flags are set. *)
Definition set_flags_LDA : M unit :=
  a <- rd_A;;
  cpu_set_flag Flags.Z (c_bool (a =? 0));;
  a <- rd_A;;
  cpu_set_flag Flags.N (Z.land (Z.shiftr a 7) 1).

Definition case_LDA_IM (cycles : Byte) : M Byte :=
  operand <- fetch_program_byte;;
  wr_A operand;;
  let cycles := sub_cycles cycles 2 in
  set_flags_LDA;;
  ret cycles.

Definition case_LDA_ZP (cycles : Byte) : M Byte :=
  operand <- fetch_program_byte;;
  zero_page_value <- bus_read (Z.land operand 0xFF);;
  wr_A zero_page_value;;
  let cycles := sub_cycles cycles 3 in
  set_flags_LDA;;
  ret cycles.

Definition case_LDA_ZPX (cycles : Byte) : M Byte :=
  operand <- fetch_program_byte;;
  x <- rd_X;;
  let addr := to_Byte (operand + x) in
  v <- bus_read (Z.land addr 0xFF);;
  wr_A v;;
  let cycles := sub_cycles cycles 4 in
  set_flags_LDA;;
  ret cycles.

Definition case_LDA_ABS (cycles : Byte) : M Byte :=
  operand <- fetch_program_word;;
  v <- bus_read operand;;
  wr_A v;;
  let cycles := sub_cycles cycles 4 in
  set_flags_LDA;;
  ret cycles.

Definition case_LDA_ABSX (cycles : Byte) : M Byte :=
  x <- rd_X;;
  cycles <- indexed_LDA_ABS cycles x;;
  set_flags_LDA;;
  ret cycles.

Definition case_LDA_ABSY (cycles : Byte) : M Byte :=
  y <- rd_Y;;
  cycles <- indexed_LDA_ABS cycles y;;
  set_flags_LDA;;
  ret cycles.

Definition case_LDA_INDX (cycles : Byte) : M Byte :=
  operand <- fetch_program_byte;;
  x <- rd_X;;
  let wrapped := to_Byte (Z.land (operand + x) 0xFF) in
  lo <- bus_read (Z.land wrapped 0xFF);;
  hi <- bus_read (Z.land (wrapped + 1) 0xFF);;
  let addr := to_Word (Z.lor lo (Z.shiftl hi 8)) in
  v <- bus_read addr;;
  wr_A v;;
  let cycles := sub_cycles cycles 5 in
  set_flags_LDA;;
  ret cycles.

Definition case_LDA_INDY (cycles : Byte) : M Byte :=
  operand <- fetch_program_byte;;
  lo <- bus_read operand;;
  hi <- bus_read (Z.land (operand + 1) 0xFF);;
  let base := to_Word (Z.lor lo (Z.shiftl hi 8)) in
  y <- rd_Y;;
  let addr := to_Word (base + y) in
  let extra_cycle :=
    to_Byte (c_bool (negb (Z.land addr 0xFF00 =? Z.land base 0xFF00))) in
  v <- bus_read addr;;
  wr_A v;;
  let cycles := sub_cycles cycles (5 + extra_cycle) in
  set_flags_LDA;;
  ret cycles.

Definition case_STA_ZP (cycles : Byte) : M Byte :=
  operand <- fetch_program_byte;;
  a <- rd_A;;
  bus_write operand a;;
  ret (sub_cycles cycles 3).

Definition case_STA_ZPX (cycles : Byte) : M Byte :=
  operand <- fetch_program_byte;;
  x <- rd_X;;
  let addr := to_Byte (Z.land (operand + x) 0xFF) in
  a <- rd_A;;
  bus_write addr a;;
  ret (sub_cycles cycles 4).

Definition case_STA_ABS (cycles : Byte) : M Byte :=
  operand <- fetch_program_word;;
  a <- rd_A;;
  bus_write operand a;;
  ret (sub_cycles cycles 4).

Definition case_STA_ABSX (cycles : Byte) : M Byte :=
  x <- rd_X;;
  indexed_STA_ABS x;;
  ret (sub_cycles cycles 5).

Definition case_STA_ABSY (cycles : Byte) : M Byte :=
  y <- rd_Y;;
  indexed_STA_ABS y;;
  ret (sub_cycles cycles 5).

Definition case_STA_INDX (cycles : Byte) : M Byte :=
  operand <- fetch_program_byte;;
  x <- rd_X;;
  let wrapped := to_Byte (Z.land (operand + x) 0xFF) in
  lo <- bus_read (Z.land wrapped 0xFF);;
  hi <- bus_read (Z.land (wrapped + 1) 0xFF);;
  let addr := to_Word (Z.lor lo (Z.shiftl hi 8)) in
  a <- rd_A;;
  bus_write addr a;;
  ret (sub_cycles cycles 6).

Definition case_STA_INDY (cycles : Byte) : M Byte :=
  operand <- fetch_program_byte;;
  lo <- bus_read (Z.land operand 0xFF);;
  hi <- bus_read (Z.land (operand + 1) 0xFF);;
  let base := to_Word (Z.lor lo (Z.shiftl hi 8)) in
  y <- rd_Y;;
  let addr := to_Word (base + y) in
  a <- rd_A;;
  bus_write addr a;;
  ret (sub_cycles cycles 6).

Definition dispatch (opcode : Byte) (cycles : Byte) : M Byte :=
  if opcode =? OPC_LDA_IM then case_LDA_IM cycles
  else if opcode =? OPC_LDA_ZP then case_LDA_ZP cycles
  else if opcode =? OPC_LDA_ZPX then case_LDA_ZPX cycles
  else if opcode =? OPC_LDA_ABS then case_LDA_ABS cycles
  else if opcode =? OPC_LDA_ABSX then case_LDA_ABSX cycles
  else if opcode =? OPC_LDA_ABSY then case_LDA_ABSY cycles
  else if opcode =? OPC_LDA_INDX then case_LDA_INDX cycles
  else if opcode =? OPC_LDA_INDY then case_LDA_INDY cycles
  else if opcode =? OPC_STA_ZP then case_STA_ZP cycles
  else if opcode =? OPC_STA_ZPX then case_STA_ZPX cycles
  else if opcode =? OPC_STA_ABS then case_STA_ABS cycles
  else if opcode =? OPC_STA_ABSX then case_STA_ABSX cycles
  else if opcode =? OPC_STA_ABSY then case_STA_ABSY cycles
  else if opcode =? OPC_STA_INDX then case_STA_INDX cycles
  else if opcode =? OPC_STA_INDY then case_STA_INDY cycles
  else if opcode =? OPC_ADC_IM then case_ADC_IM cycles
  else ret (sub_cycles cycles 1).

Definition loop_body (cycles : Byte) : M Byte :=
  opcode <- fetch_program_byte;;
  dispatch opcode cycles.

Fixpoint while_cycles (fuel : nat) (cycles : Byte) (s : machine)
  : option machine :=
  if cycles >? 0 then
    match fuel with
    | O => None
    | S fuel' =>
        let (cycles', s') := loop_body cycles s in
        while_cycles fuel' cycles' s'
    end
  else Some s.

Definition cpu_execute (fuel : nat) (cycles : Z) (s : machine)
  : option machine :=
  while_cycles fuel (to_Byte cycles) s.

End Part000.

(** ** The set-up of the test harness *)

Definition PRG_START : Z := 0x0200.
Definition DATA_PAGE : Z := 0x0300.

(** [test_reset] of the harness: reset, then place [PC] at the program. *)
Definition test_reset : M unit :=
  cpu_reset;;
  wr_PC PRG_START.

(** Final state and result of a computation. *)
Definition exec {T} (c : M T) (s : machine) : machine := snd (c s).
Definition eval {T} (c : M T) (s : machine) : T := fst (c s).

(** A machine before any initialisation: all fields zero, empty history. *)
Definition power_on : machine :=
  mkMachine (mkCPU 0 0 (mkRegs 0 0 0) 0) (fun _ => 0) [].

(** The value of a flag in a machine, as [cpu_read_flag] returns it. *)
Definition flag_of (f : Flags.Flags) (s : machine) : Byte :=
  eval (cpu_read_flag f) s.

(** ** Scenarios of the harness and of the spec, as machines *)

(** "STACK WORD" of the harness: push [hi], push [lo], pop twice. *)
Definition push2_pop2 (hi lo : Z) : M (Byte * Byte) :=
  stack_push hi;;
  stack_push lo;;
  got_lo <- stack_pop;;
  got_hi <- stack_pop;;
  ret (got_lo, got_hi).

(** A CPU whose registers and flags are all zero, about to execute
    [STA $00] at address 0. *)
Definition sta_machine : machine :=
  exec (bus_write 0x0000 OPC_STA_ZP) power_on.

(** "ASL ZP,X" of the harness: operand 0x10, X = 4, the byte 0x08 at 0x14;
    in addition the byte 0x21 at 0x10. *)
Definition asl_zpx_machine : machine :=
  exec (test_reset;;
        wr_X 0x04;;
        bus_write 0x14 0x08;;
        bus_write 0x10 0x21;;
        bus_write PRG_START OPC_ASL_ZPX;;
        bus_write (PRG_START + 1) 0x10) power_on.

(** "BRK" of the harness, scenario 5 of the spec: the vector at 0xFFFE/F is
    0x1234 and a BRK opcode sits at 0x0200. *)
Definition brk_machine : machine :=
  exec (test_reset;;
        bus_write 0xFFFE 0x34;;
        bus_write 0xFFFF 0x12;;
        bus_write PRG_START OPC_BRK_IMP) power_on.

(** "LDA ABSX" boundary case of the spec: base 0x03FF, X = 1, and the byte
    0x77 at 0x0400. *)
Definition lda_absx_machine : machine :=
  exec (test_reset;;
        wr_X 0x01;;
        bus_write 0x0400 0x77;;
        bus_write PRG_START OPC_LDA_ABSX;;
        bus_write (PRG_START + 1) 0xFF;;
        bus_write (PRG_START + 2) 0x03) power_on.

(** "LDA IM - load 0x42" of the harness. *)
Definition lda_im_machine : machine :=
  exec (test_reset;;
        bus_write PRG_START OPC_LDA_IM;;
        bus_write (PRG_START + 1) 0x42) power_on.

(** A memory that holds the byte 0xA9 at every address (the program
    [LDA #$A9] repeated), with the CPU as [test_reset] leaves it. *)
Definition lda_loop_machine : machine :=
  mkMachine (mkCPU PRG_START 0xFF (mkRegs 0 0 0) 0x24) (fun _ => 0xA9) [].

(** "ADC IM - 0xFF + 0x01 = 0x00, C=1" of the harness. *)
Definition adc_machine : machine :=
  exec (test_reset;;
        wr_A 0xFF;;
        cpu_set_flag Flags.C 0;;
        bus_write PRG_START OPC_ADC_IM;;
        bus_write (PRG_START + 1) 0x01) power_on.

(** "BNE - taken (Z=0), offset +0x05" of the harness. *)
Definition bne_machine : machine :=
  exec (test_reset;;
        cpu_set_flag Flags.Z 0;;
        bus_write PRG_START OPC_BNE_REL;;
        bus_write (PRG_START + 1) 0x05) power_on.

(** A branch opcode with offset +5 at the program start, on the machine that
    [test_reset] leaves (C = Z = V = N = 0). *)
Definition branch_machine (opcode : Byte) : machine :=
  exec (test_reset;;
        bus_write PRG_START opcode;;
        bus_write (PRG_START + 1) 0x05) power_on.

(** The number of bus accesses one pass of the loop makes on a machine. *)
Definition bus_accesses_of_pass (cycles : Byte) (s : machine) : nat :=
  (length (bus_log (exec (loop_body cycles) s)) - length (bus_log s))%nat.

(** The case labels of the switch. *)
Definition case_labels : list Z :=
  [OPC_LDA_IM; OPC_LDA_ZP; OPC_LDA_ZPX; OPC_LDA_ABS; OPC_LDA_ABSX;
   OPC_LDA_ABSY; OPC_LDA_INDX; OPC_LDA_INDY;
   OPC_STA_ZP; OPC_STA_ZPX; OPC_STA_ABS; OPC_STA_ABSX; OPC_STA_ABSY;
   OPC_STA_INDX; OPC_STA_INDY;
   OPC_ADC_IM;
   OPC_AND_IM; OPC_AND_ZP; OPC_AND_ZPX; OPC_AND_ABS; OPC_AND_ABSX;
   OPC_AND_ABSY; OPC_AND_INDX; OPC_AND_INDY;
   OPC_ASL_ACC; OPC_ASL_ZP; OPC_ASL_ZPX; OPC_ASL_ABS; OPC_ASL_ABSX;
   OPC_BCC_REL; OPC_BCS_REL; OPC_BNE_REL; OPC_BEQ_REL; OPC_BPL_REL;
   OPC_BMI_REL; OPC_BVC_REL; OPC_BVS_REL;
   OPC_BIT_ZP; OPC_BIT_ABS; OPC_BRK_IMP].

(** [bus_write_word] of the harness: a word stored little-endian via the
    bus.  Both parameters are [Word]s. *)
Definition bus_write_word (addr value : Z) : M unit :=
  let addr := to_Word addr in
  let value := to_Word value in
  bus_write addr (Z.land value 0xFF);;
  bus_write (addr + 1) (Z.shiftr value 8).

(** The harness stores a word and then runs a program that fetches it:
    [bus_write_word(addr, value); cpu.PC = addr;] followed by
    [fetch_program_word]. *)
Definition store_then_fetch_word (addr value : Z) : M Word :=
  bus_write_word addr value;;
  wr_PC addr;;
  fetch_program_word.

(** "STACK LIFO" of the harness, for any number of values: push the values
    of a list from left to right, then pop [n] times, collecting what the
    pops return in the order they return it. *)
Fixpoint push_all (l : list Z) : M unit :=
  match l with
  | [] => ret tt
  | v :: l' => stack_push v;; push_all l'
  end.

Fixpoint pop_n (n : nat) : M (list Byte) :=
  match n with
  | O => ret []
  | S n' => v <- stack_pop;; l <- pop_n n';; ret (v :: l)
  end.

(** ** Vocabulary of the statements *)

(** Bit 5 of P is 1. *)
Definition U_set (s : machine) : Prop :=
  Z.testbit (flags (cpu s)) (Flags.bit Flags.U) = true.

(** A computation keeps U when it cannot clear the bit. *)
Definition keeps_U {T} (c : M T) : Prop :=
  forall s, U_set s -> U_set (snd (c s)).

(** The status byte that [cpu_set_flag flag value] leaves when it finds the
    status byte [p]. *)
Definition flag_write (flag : Flags.Flags) (value : Z) (p : Byte) : Byte :=
  let mask := to_Byte (Z.shiftl 0x01 (Flags.bit flag)) in
  let p1 := if to_Byte value =? 0
            then to_Byte (Z.land p (Z.lnot mask))
            else to_Byte (Z.lor p mask) in
  to_Byte (Z.lor p1 (to_Byte (Z.shiftl 0x01 (Flags.bit Flags.U)))).

(** The machine [s] with the status byte [p]. *)
Definition with_flags (p : Byte) (s : machine) : machine :=
  mkMachine (mkCPU (PC (cpu s)) (SP (cpu s)) (regs (cpu s)) p)
            (mem s) (bus_log s).

(** The V flag as both ADC cases compute it. *)
Definition adc_overflow (a operand result : Z) : Z :=
  c_bool (negb (Z.land (Z.land (Z.lxor a result) (Z.lxor operand result))
                       0x80 =? 0)).

(** A computation keeps an observation [f] of the machine when the
    observation is the same after it as before. *)
Definition keeps {V} (f : machine -> V) {T} (c : M T) : Prop :=
  forall s, f (snd (c s)) = f s.

(** The index registers; the registers, status and stack pointer. *)
Definition obs_XY (s : machine) : Byte * Byte :=
  (X (regs (cpu s)), Y (regs (cpu s))).
Definition obs_SP (s : machine) : Byte := SP (cpu s).
Definition obs_regs_P_SP (s : machine) : Regs * Byte * Byte :=
  (regs (cpu s), flags (cpu s), SP (cpu s)).

(** The case labels whose cases call [bus_write]: the stores, the memory
    forms of ASL, and BRK. *)
Definition writing_labels : list Z :=
  [OPC_STA_ZP; OPC_STA_ZPX; OPC_STA_ABS; OPC_STA_ABSX; OPC_STA_ABSY;
   OPC_STA_INDX; OPC_STA_INDY;
   OPC_ASL_ZP; OPC_ASL_ZPX; OPC_ASL_ABS; OPC_ASL_ABSX;
   OPC_BRK_IMP].

Definition STA_labels : list Z :=
  [OPC_STA_ZP; OPC_STA_ZPX; OPC_STA_ABS; OPC_STA_ABSX; OPC_STA_ABSY;
   OPC_STA_INDX; OPC_STA_INDY].







(** A memory that holds the same byte [v] everywhere, with the CPU as
    [test_reset] leaves it. *)
Definition filled_machine (v : Byte) : machine :=
  mkMachine (mkCPU PRG_START 0xFF (mkRegs 0 0 0) 0x24) (fun _ => v) [].

(** Scenario 4 of the spec: [LDA $FF,X] with X = 2 and 0x77 at 0x0001. *)
Definition lda_zpx_machine : machine :=
  exec (test_reset;;
        wr_X 0x02;;
        bus_write 0x0001 0x77;;
        bus_write PRG_START OPC_LDA_ZPX;;
        bus_write (PRG_START + 1) 0xFF) power_on.

(** [LDA ($FE,X)] with X = 1: the pointer bytes sit at 0x00FF and 0x0000
    and point to 0x0300, which holds 0x5A. *)
Definition lda_indx_machine : machine :=
  exec (test_reset;;
        wr_X 0x01;;
        bus_write 0x00FF 0x00;;
        bus_write 0x0000 0x03;;
        bus_write 0x0300 0x5A;;
        bus_write PRG_START OPC_LDA_INDX;;
        bus_write (PRG_START + 1) 0xFE) power_on.

(** [STA $03FF,X] with X = 1 and A = 0x42: the store crosses into page 4. *)
Definition sta_absx_machine : machine :=
  exec (test_reset;;
        wr_A 0x42;;
        wr_X 0x01;;
        bus_write PRG_START OPC_STA_ABSX;;
        bus_write (PRG_START + 1) 0xFF;;
        bus_write (PRG_START + 2) 0x03) power_on.

(** "ASL ACC - 0x80 << 1" of the harness. *)
Definition asl_acc_machine : machine :=
  exec (test_reset;;
        wr_A 0x80;;
        bus_write PRG_START OPC_ASL_ACC) power_on.

(** [ASL $0300] with 0x80 at 0x0300. *)
Definition asl_abs_machine : machine :=
  exec (test_reset;;
        bus_write DATA_PAGE 0x80;;
        bus_write PRG_START OPC_ASL_ABS;;
        bus_write (PRG_START + 1) 0x00;;
        bus_write (PRG_START + 2) 0x03) power_on.

(** Scenario 6 of the spec: [BIT $10] with 0xF0 at 0x0010 and A = 0x0F. *)
Definition bit_machine : machine :=
  exec (test_reset;;
        wr_A 0x0F;;
        bus_write 0x0010 0xF0;;
        bus_write PRG_START OPC_BIT_ZP;;
        bus_write (PRG_START + 1) 0x10) power_on.

(** The memory that pushing the values of [l], first to last, leaves when
    the stack pointer is [sp] and the memory [m]. *)
Fixpoint push_mem (l : list Z) (sp : Byte) (m : Word -> Byte) : Word -> Byte :=
  match l with
  | [] => m
  | v :: l' =>
      push_mem l' (to_Byte (sp - 1))
               (fun a => if a =? 0x100 + sp then to_Byte v else m a)
  end.

(** The bytes that [n] pops read when the stack pointer is [sp]. *)
Definition pop_values (n : nat) (sp : Byte) (m : Word -> Byte) : list Byte :=
  map (fun i => m (0x100 + to_Byte (sp + Z.of_nat i))) (seq 1 n).

(** The labels of the load cases; together with [STA_labels] they are the
    instructions the two cores have in common besides ADC. *)
Definition LDA_labels : list Z :=
  [OPC_LDA_IM; OPC_LDA_ZP; OPC_LDA_ZPX; OPC_LDA_ABS; OPC_LDA_ABSX;
   OPC_LDA_ABSY; OPC_LDA_INDX; OPC_LDA_INDY].

(** "AND IM - 0xFF & 0x0F" of the harness. *)
Definition and_im_machine : machine :=
  exec (test_reset;;
        wr_A 0xFF;;
        bus_write PRG_START OPC_AND_IM;;
        bus_write (PRG_START + 1) 0x0F) power_on.

(** [LDA ($FF),Y] with Y = 1: the pointer bytes sit at 0x00FF and 0x0000 and
    give the base 0x03FF; the byte 0x66 is at 0x0400. *)
Definition lda_indy_machine : machine :=
  exec (test_reset;;
        wr_Y 0x01;;
        bus_write 0x00FF 0xFF;;
        bus_write 0x0000 0x03;;
        bus_write 0x0400 0x66;;
        bus_write PRG_START OPC_LDA_INDY;;
        bus_write (PRG_START + 1) 0xFF) power_on.

(** * Properties *)

(** ** Machine integers *)

Lemma to_Byte_range v : is_Byte (to_Byte v).
Proof. unfold is_Byte, to_Byte. apply Z.mod_pos_bound. lia. Qed.

Lemma to_Word_range v : is_Word (to_Word v).
Proof. unfold is_Word, to_Word. apply Z.mod_pos_bound. lia. Qed.

Lemma to_Byte_id v : is_Byte v -> to_Byte v = v.
Proof. unfold is_Byte, to_Byte. intros H. now apply Z.mod_small. Qed.

Lemma to_Word_id v : is_Word v -> to_Word v = v.
Proof. unfold is_Word, to_Word. intros H. now apply Z.mod_small. Qed.

Lemma land_0xFF v : Z.land v 0xFF = v mod 256.
Proof. change 0xFF with (Z.ones 8). rewrite Z.land_ones by lia. reflexivity. Qed.

Lemma shiftr_8 v : Z.shiftr v 8 = v / 256.
Proof. rewrite Z.shiftr_div_pow2 by lia. reflexivity. Qed.

(** The address [0x100 + sp] of a stack slot needs no reduction. *)
Lemma stack_slot_word sp : is_Byte sp -> to_Word (0x100 + sp) = 0x100 + sp.
Proof. intros H. apply to_Word_id. unfold is_Byte, is_Word in *. lia. Qed.

(** ** The bus window covers every word *)

Lemma bus_window addr :
  is_Word addr -> (MEM_START <=? addr) && (addr <=? MEM_END) = true.
Proof.
  unfold is_Word, MEM_START, MEM_END. intros H.
  apply andb_true_iff. split; apply Z.leb_le; lia.
Qed.

Lemma bus_read_eq addr s :
  bus_read addr s =
  (mem s (to_Word addr),
   mkMachine (cpu s) (mem s) (BusRead (to_Word addr) :: bus_log s)).
Proof.
  unfold bus_read, bind, log_event.
  rewrite bus_window by apply to_Word_range.
  unfold mem_read. cbn. unfold to_Word. now rewrite Z.mod_mod by lia.
Qed.

Lemma bus_write_eq addr data s :
  bus_write addr data s =
  (tt,
   mkMachine (cpu s)
     (fun a => if a =? to_Word addr then to_Byte data else mem s a)
     (BusWrite (to_Word addr) (to_Byte data) :: bus_log s)).
Proof.
  unfold bus_write, bind, log_event.
  rewrite bus_window by apply to_Word_range.
  unfold mem_write. cbn. unfold to_Word, to_Byte.
  now rewrite !Z.mod_mod by lia.
Qed.

(** ** The switch *)

(** No two case labels are equal, so testing them one after the other, as
    [dispatch] does, selects the same case as the C switch. *)
Lemma case_labels_distinct : NoDup case_labels.
Proof.
  unfold case_labels.
  repeat (constructor; [ cbv; intuition discriminate | ]).
  constructor.
Qed.

(** From here on the bus routines are rewritten with the two equations above
    instead of being unfolded. *)
Arguments bus_read : simpl never.
Arguments bus_write : simpl never.
Arguments to_Byte : simpl never.
Arguments to_Word : simpl never.

(** ** Zero budget *)

(** C10: with a budget of 0 the loop test fails at once: [cpu_execute]
    returns the machine it was given, with the same CPU registers, the same
    memory and the same history of bus accesses (so no bus access was made),
    whatever number of passes the loop is allowed. *)
Theorem cpu_execute_zero_budget (fuel : nat) (s : machine) :
  cpu_execute fuel 0 s = Some s.
Proof. destruct fuel; reflexivity. Qed.

(** ** Reset *)

(** C5 as the spec states it fails on the CPU core: after [cpu_reset] the
    program counter is 0x01FF and the stack pointer 0xFF. *)
Lemma cpu_reset_not_0100_FD :
  ~ (PC (cpu (exec cpu_reset power_on)) = 0x0100 /\
     SP (cpu (exec cpu_reset power_on)) = 0xFD).
Proof. cbn. intros [H _]. discriminate H. Qed.

(** C5 (amended): [cpu_reset] of the CPU core sets PC = 0x01FF, SP = 0xFF,
    A = X = Y = 0, P = 0b00100100 and zeroes every memory byte, making no bus
    read or write of its own; [cpu_reset] of the earlier LDA/STA/ADC core
    sets PC = 0x0100 and SP = 0xFD, with the same A, X, Y, P and memory. *)
Theorem cpu_reset_values (s : machine) :
  (let s' := exec cpu_reset s in
   cpu s' = mkCPU 0x01FF 0xFF (mkRegs 0 0 0) 0x24 /\
   (forall a, mem s' a = 0) /\
   bus_log s' = bus_log s) /\
  (let s' := exec Part000.cpu_reset s in
   cpu s' = mkCPU 0x0100 0xFD (mkRegs 0 0 0) 0x24 /\
   (forall a, mem s' a = 0) /\
   bus_log s' = bus_log s).
Proof. repeat split. Qed.

(** ** Stack discipline *)

Lemma to_Byte_idem v : to_Byte (to_Byte v) = to_Byte v.
Proof. unfold to_Byte. now rewrite Z.mod_mod by lia. Qed.

Lemma byte_dec_inc v : is_Byte v -> to_Byte (to_Byte (v - 1) + 1) = v.
Proof.
  unfold is_Byte, to_Byte. intros H.
  rewrite Z.add_mod_idemp_l by lia.
  replace (v - 1 + 1) with v by lia. now apply Z.mod_small.
Qed.

Lemma byte_dec_neq v : is_Byte v -> to_Byte (v - 1) <> v.
Proof.
  unfold is_Byte, to_Byte. intros H.
  destruct (Z.eq_dec v 0) as [-> | Hnz].
  - discriminate.
  - rewrite Z.mod_small by lia. lia.
Qed.

Lemma stack_push_eq value s :
  is_Byte (SP (cpu s)) ->
  stack_push value s =
  (tt,
   mkMachine
     (mkCPU (PC (cpu s)) (to_Byte (SP (cpu s) - 1)) (regs (cpu s))
            (flags (cpu s)))
     (fun a => if a =? 0x100 + SP (cpu s) then to_Byte value else mem s a)
     (BusWrite (0x100 + SP (cpu s)) (to_Byte value) :: bus_log s)).
Proof.
  intros Hsp. unfold stack_push, bind, rd.
  rewrite bus_write_eq. cbn -[Z.add].
  rewrite stack_slot_word, to_Byte_idem by assumption.
  reflexivity.
Qed.

Lemma stack_pop_eq s :
  let sp' := to_Byte (SP (cpu s) + 1) in
  stack_pop s =
  (mem s (0x100 + sp'),
   mkMachine
     (mkCPU (PC (cpu s)) sp' (regs (cpu s)) (flags (cpu s)))
     (mem s)
     (BusRead (0x100 + sp') :: bus_log s)).
Proof.
  intros sp'. unfold stack_pop, bind, rd, wr_SP, upd_cpu.
  cbn -[Z.add].
  rewrite bus_read_eq. cbn -[Z.add]. fold sp'.
  rewrite stack_slot_word by apply to_Byte_range.
  reflexivity.
Qed.

Lemma push2_pop2_eq (s : machine) (hi lo : Z) :
  is_Byte (SP (cpu s)) ->
  let sp := SP (cpu s) in
  let sp1 := to_Byte (sp - 1) in
  push2_pop2 hi lo s =
  ((to_Byte lo, to_Byte hi),
   mkMachine
     (mkCPU (PC (cpu s)) sp (regs (cpu s)) (flags (cpu s)))
     (fun a => if a =? 0x100 + sp1 then to_Byte lo
               else if a =? 0x100 + sp then to_Byte hi else mem s a)
     (BusRead (0x100 + sp) :: BusRead (0x100 + sp1) ::
      BusWrite (0x100 + sp1) (to_Byte lo) ::
      BusWrite (0x100 + sp) (to_Byte hi) :: bus_log s)).
Proof.
  intros Hsp sp sp1.
  assert (Hsp1 : is_Byte sp1) by apply to_Byte_range.
  assert (Hback : to_Byte (sp1 + 1) = sp).
  { unfold sp1. rewrite <- (byte_dec_inc sp Hsp) at 2.
    unfold to_Byte. now rewrite Z.add_mod_idemp_l by lia. }
  assert (Hneq : (0x100 + sp =? 0x100 + sp1) = false).
  { apply Z.eqb_neq. pose proof (byte_dec_neq sp Hsp) as H.
    fold sp1 in H. lia. }
  unfold push2_pop2, bind at 1.
  rewrite stack_push_eq by assumption. fold sp.
  unfold bind at 1. rewrite stack_push_eq by (cbn; apply to_Byte_range).
  cbn [cpu SP PC regs flags mem bus_log]. fold sp1.
  unfold bind at 1. rewrite stack_pop_eq.
  cbn [cpu SP PC regs flags mem bus_log].
  rewrite (byte_dec_inc sp1 Hsp1).
  unfold bind at 1. rewrite stack_pop_eq.
  cbn [cpu SP PC regs flags mem bus_log ret].
  rewrite Hback, Z.eqb_refl, Hneq, Z.eqb_refl.
  reflexivity.
Qed.

(** C9: for bytes [hi] and [lo] and a CPU whose [SP] is a byte, push [hi],
    push [lo], pop, pop returns [lo] and then [hi], leaves the CPU, and so
    [SP], as it was, and makes exactly four bus accesses, each at
    [0x0100 + sp] for a byte [sp]: the writes at [SP] and [SP - 1] (mod 256),
    then the reads at [SP - 1] (mod 256) and [SP]. *)
Theorem stack_push_pop_roundtrip (s : machine) (hi lo : Z) :
  is_Byte (SP (cpu s)) -> is_Byte hi -> is_Byte lo ->
  let sp := SP (cpu s) in
  let sp1 := to_Byte (sp - 1) in
  let r := push2_pop2 hi lo s in
  fst r = (lo, hi) /\
  cpu (snd r) = cpu s /\
  is_Byte sp1 /\
  bus_log (snd r) =
    [BusRead (0x100 + sp); BusRead (0x100 + sp1);
     BusWrite (0x100 + sp1) lo; BusWrite (0x100 + sp) hi] ++ bus_log s.
Proof.
  intros Hsp Hhi Hlo sp sp1 r. subst r.
  rewrite (push2_pop2_eq s hi lo Hsp). fold sp sp1.
  rewrite (to_Byte_id hi Hhi), (to_Byte_id lo Hlo).
  cbn [fst snd cpu bus_log app].
  repeat split; try apply to_Byte_range.
  subst sp. destruct (cpu s); reflexivity.
Qed.

Lemma stack_push_pop_roundtrip_witness :
  fst (push2_pop2 0xAB 0xCD power_on) = (0xCD, 0xAB) /\
  cpu (snd (push2_pop2 0xAB 0xCD power_on)) = cpu power_on.
Proof.
  pose proof (stack_push_pop_roundtrip power_on 0xAB 0xCD) as H.
  cbv zeta in H.
  split; apply H; unfold is_Byte; cbn; lia.
Defined.

(** ** The unused flag U *)

Lemma testbit_to_Byte v n :
  0 <= n < 8 -> Z.testbit (to_Byte v) n = Z.testbit v n.
Proof.
  intros H. unfold to_Byte. change 256 with (2 ^ 8).
  apply Z.mod_pow2_bits_low. lia.
Qed.

Lemma keeps_U_ret T (x : T) : keeps_U (ret x).
Proof. intros s H. exact H. Qed.

Lemma keeps_U_bind T R (c : M T) (k : T -> M R) :
  keeps_U c -> (forall x, keeps_U (k x)) -> keeps_U (bind c k).
Proof.
  intros Hc Hk s H. unfold bind.
  specialize (Hc s H). destruct (c s) as [x s']. apply (Hk x s' Hc).
Qed.

Lemma keeps_U_if T (b : bool) (c1 c2 : M T) :
  keeps_U c1 -> keeps_U c2 -> keeps_U (if b then c1 else c2).
Proof. destruct b; auto. Qed.

Lemma keeps_U_rd T (f : CPU -> T) : keeps_U (rd f).
Proof. intros s H. exact H. Qed.

Lemma keeps_U_wr_PC v : keeps_U (wr_PC v).
Proof. intros s H. exact H. Qed.

Lemma keeps_U_wr_SP v : keeps_U (wr_SP v).
Proof. intros s H. exact H. Qed.

Lemma keeps_U_wr_A v : keeps_U (wr_A v).
Proof. intros s H. exact H. Qed.

Lemma keeps_U_bus_read addr : keeps_U (bus_read addr).
Proof. intros s H. rewrite bus_read_eq. exact H. Qed.

Lemma keeps_U_bus_write addr data : keeps_U (bus_write addr data).
Proof. intros s H. rewrite bus_write_eq. exact H. Qed.

(** [cpu_set_flag] ends by setting U, whatever the flags were. *)
Lemma cpu_set_flag_sets_U flag value s :
  U_set (snd (cpu_set_flag flag value s)).
Proof.
  unfold U_set, cpu_set_flag, bind, rd, wr_flags, upd_cpu.
  destruct (to_Byte value =? 0); cbn [snd fst cpu flags Flags.bit];
    rewrite testbit_to_Byte by lia;
    rewrite Z.lor_spec; apply orb_true_iff; right; reflexivity.
Qed.

Lemma keeps_U_cpu_set_flag flag value : keeps_U (cpu_set_flag flag value).
Proof. intros s _. apply cpu_set_flag_sets_U. Qed.

Create HintDb keeps_U discriminated.
#[local] Hint Resolve keeps_U_rd keeps_U_wr_PC keeps_U_wr_SP keeps_U_wr_A
  keeps_U_bus_read keeps_U_bus_write keeps_U_cpu_set_flag : keeps_U.

(** Walks through the binds, lets and conditionals of a computation.  A
    leaf is closed by the lemmas collected so far; a routine that has no
    lemma yet is opened. *)
Ltac head_of t :=
  lazymatch t with
  | ?f _ => head_of f
  | _ => t
  end.

Ltac keeps_U_step :=
  lazymatch goal with
  | |- keeps_U (ret _) => apply keeps_U_ret
  | |- keeps_U (bind _ _) => apply keeps_U_bind; [ | intro ]
  | |- keeps_U (if _ then _ else _) => apply keeps_U_if
  | |- keeps_U (let _ := _ in _) => cbv zeta
  | |- keeps_U ?c =>
      first [ solve [ auto with keeps_U ]
            | let h := head_of c in unfold h ]
  end.

Ltac keeps_U_of def := unfold def; repeat keeps_U_step.

(** The helper routines. *)
Lemma keeps_U_stack_push v : keeps_U (stack_push v).
Proof. keeps_U_of stack_push. Qed.

Lemma keeps_U_stack_pop : keeps_U stack_pop.
Proof. keeps_U_of stack_pop. Qed.

Lemma keeps_U_fetch_program_byte : keeps_U fetch_program_byte.
Proof. keeps_U_of fetch_program_byte. Qed.

#[local] Hint Resolve keeps_U_stack_push keeps_U_stack_pop
  keeps_U_fetch_program_byte : keeps_U.

Lemma keeps_U_fetch_program_word : keeps_U fetch_program_word.
Proof. keeps_U_of fetch_program_word. Qed.

Lemma keeps_U_set_NZ_flags : keeps_U set_NZ_flags.
Proof. keeps_U_of set_NZ_flags. Qed.

Lemma keeps_U_branch c f v : keeps_U (branch c f v).
Proof. keeps_U_of branch. Qed.

#[local] Hint Resolve keeps_U_fetch_program_word keeps_U_set_NZ_flags
  keeps_U_branch : keeps_U.

(** The case that ends the fall-through chain of the branches, and the six
    cases of the chain, each resting on the one it falls into. *)
Lemma keeps_U_case_BIT_ZP c : keeps_U (case_BIT_ZP c).
Proof. keeps_U_of case_BIT_ZP. Qed.
#[local] Hint Resolve keeps_U_case_BIT_ZP : keeps_U.

Lemma keeps_U_case_BVS_REL c : keeps_U (case_BVS_REL c).
Proof. keeps_U_of case_BVS_REL. Qed.
#[local] Hint Resolve keeps_U_case_BVS_REL : keeps_U.

Lemma keeps_U_case_BVC_REL c : keeps_U (case_BVC_REL c).
Proof. keeps_U_of case_BVC_REL. Qed.
#[local] Hint Resolve keeps_U_case_BVC_REL : keeps_U.

Lemma keeps_U_case_BMI_REL c : keeps_U (case_BMI_REL c).
Proof. keeps_U_of case_BMI_REL. Qed.
#[local] Hint Resolve keeps_U_case_BMI_REL : keeps_U.

Lemma keeps_U_case_BPL_REL c : keeps_U (case_BPL_REL c).
Proof. keeps_U_of case_BPL_REL. Qed.
#[local] Hint Resolve keeps_U_case_BPL_REL : keeps_U.

Lemma keeps_U_case_BEQ_REL c : keeps_U (case_BEQ_REL c).
Proof. keeps_U_of case_BEQ_REL. Qed.
#[local] Hint Resolve keeps_U_case_BEQ_REL : keeps_U.

Lemma keeps_U_case_BNE_REL c : keeps_U (case_BNE_REL c).
Proof. keeps_U_of case_BNE_REL. Qed.
#[local] Hint Resolve keeps_U_case_BNE_REL : keeps_U.

(** Every case of the switch keeps U: a case either leaves the flags alone
    or writes them through [cpu_set_flag]. *)
Lemma keeps_U_dispatch opcode c : keeps_U (dispatch opcode c).
Proof. keeps_U_of dispatch. Qed.
#[local] Hint Resolve keeps_U_dispatch : keeps_U.




(** ** BRK *)

Lemma cpu_set_flag_eq flag value s :
  cpu_set_flag flag value s =
  (tt, with_flags (flag_write flag value (flags (cpu s))) s).
Proof.
  unfold cpu_set_flag, flag_write, with_flags, bind, rd, wr_flags, upd_cpu.
  destruct (to_Byte value =? 0); reflexivity.
Qed.

Lemma word_lo_byte w : to_Byte (to_Byte (Z.land w 0xFF)) = w mod 256.
Proof.
  rewrite to_Byte_idem, land_0xFF. unfold to_Byte.
  now rewrite Z.mod_mod by lia.
Qed.

Lemma word_hi_byte w :
  is_Word w -> to_Byte (to_Byte (Z.land (Z.shiftr w 8) 0xFF)) = w / 256.
Proof.
  unfold is_Word. intros H.
  rewrite to_Byte_idem, land_0xFF, shiftr_8. unfold to_Byte.
  rewrite Z.mod_mod by lia. apply Z.mod_small.
  split; [apply Z.div_pos; lia | apply Z.div_lt_upper_bound; lia].
Qed.

Lemma byte_dec2_neq v : is_Byte v -> to_Byte (to_Byte (v - 1) - 1) <> v.
Proof.
  unfold is_Byte, to_Byte. intros H.
  destruct (Z.eq_dec v 0) as [-> | H0]; [discriminate | ].
  destruct (Z.eq_dec v 1) as [-> | H1]; [discriminate | ].
  rewrite (Z.mod_small (v - 1)) by lia. rewrite Z.mod_small by lia. lia.
Qed.

(** The whole effect of the BRK case on a machine whose [SP] is a byte. *)
Lemma case_BRK_IMP_eq (s : machine) (cycles : Byte) :
  is_Byte (SP (cpu s)) ->
  let sp := SP (cpu s) in
  let sp1 := to_Byte (sp - 1) in
  let sp2 := to_Byte (sp1 - 1) in
  let stack_PC := to_Word (PC (cpu s) + 2) in
  let pushed_P := flag_write Flags.B 1 (flag_write Flags.I 1 (flags (cpu s))) in
  let mem' := fun a : Word =>
    if a =? 0x100 + sp2 then to_Byte pushed_P
    else if a =? 0x100 + sp1 then stack_PC mod 256
    else if a =? 0x100 + sp then stack_PC / 256
    else mem s a in
  case_BRK_IMP cycles s =
  (sub_cycles cycles 7,
   mkMachine
     (mkCPU (to_Word (to_Word (Z.lor (mem' 0xFFFE) (Z.shiftl (mem' 0xFFFF) 8))))
            (to_Byte (sp2 - 1)) (regs (cpu s))
            (flag_write Flags.B 0 pushed_P))
     mem'
     (BusRead 0xFFFF :: BusRead 0xFFFE ::
      BusWrite (0x100 + sp2) (to_Byte pushed_P) ::
      BusWrite (0x100 + sp1) (stack_PC mod 256) ::
      BusWrite (0x100 + sp) (stack_PC / 256) :: bus_log s)).
Proof.
  intros Hsp sp sp1 sp2 stack_PC pushed_P mem'. unfold case_BRK_IMP.
  unfold bind at 1. unfold rd at 1. cbv zeta.
  unfold bind at 1. rewrite stack_push_eq by assumption.
  unfold bind at 1. rewrite stack_push_eq by (cbn; apply to_Byte_range).
  cbn [cpu SP PC regs flags mem bus_log].
  unfold bind at 1. rewrite cpu_set_flag_eq.
  unfold bind at 1. rewrite cpu_set_flag_eq.
  unfold bind at 1. unfold rd at 1.
  unfold bind at 1. rewrite stack_push_eq by (cbn; apply to_Byte_range).
  unfold bind at 1. rewrite cpu_set_flag_eq.
  unfold bind at 1. rewrite bus_read_eq.
  unfold bind at 1. rewrite bus_read_eq.
  unfold bind at 1. unfold wr_PC, upd_cpu, ret.
  cbn [cpu SP PC regs flags mem bus_log with_flags].
  fold sp sp1 sp2 stack_PC pushed_P.
  rewrite word_lo_byte, (word_hi_byte stack_PC) by apply to_Word_range.
  reflexivity.
Qed.

(** C3 as stated fails.  In scenario 5 of the spec the BRK opcode is fetched
    from 0x0200, so [PC] is 0x0201 when the BRK case starts; the word found
    on the stack afterwards is 0x0203, not [PC + 1] = 0x0202. *)
Lemma BRK_does_not_push_PC_plus_1 :
  let s := exec fetch_program_byte brk_machine in
  let s' := exec (case_BRK_IMP 7) s in
  PC (cpu s) = 0x0201 /\
  SP (cpu s) = 0xFF /\
  ~ (mem s' 0x01FF = (PC (cpu s) + 1) / 256 /\
     mem s' 0x01FE = (PC (cpu s) + 1) mod 256).
Proof.
  vm_compute. split; [reflexivity | ]. split; [reflexivity | ].
  intros [_ H]. discriminate H.
Qed.

(** C3 (amended): when [PC] points just past the fetched BRK opcode and [SP]
    is a byte, BRK pushes the word [PC + 2] (mod 65536): its high byte is
    written first, at [0x0100 + SP], and its low byte second, at
    [0x0100 + (SP - 1) mod 256]; the status byte follows, and both bytes of
    the return address are still in place when the case ends. *)
Theorem BRK_pushes_PC_plus_2 (s : machine) (cycles : Byte) :
  is_Byte (SP (cpu s)) ->
  let sp := SP (cpu s) in
  let sp1 := to_Byte (sp - 1) in
  let sp2 := to_Byte (sp1 - 1) in
  let return_PC := to_Word (PC (cpu s) + 2) in
  let s' := exec (case_BRK_IMP cycles) s in
  mem s' (0x100 + sp) = return_PC / 256 /\
  mem s' (0x100 + sp1) = return_PC mod 256 /\
  exists pushed_P,
    bus_log s' =
      BusRead 0xFFFF :: BusRead 0xFFFE ::
      BusWrite (0x100 + sp2) pushed_P ::
      BusWrite (0x100 + sp1) (return_PC mod 256) ::
      BusWrite (0x100 + sp) (return_PC / 256) :: bus_log s.
Proof.
  intros Hsp sp sp1 sp2 return_PC s'.
  assert (H1 : sp1 <> sp) by apply (byte_dec_neq sp Hsp).
  assert (H2 : sp2 <> sp) by apply (byte_dec2_neq sp Hsp).
  assert (H3 : sp2 <> sp1)
    by apply (byte_dec_neq sp1 (to_Byte_range _)).
  subst s'. unfold exec. rewrite (case_BRK_IMP_eq s cycles Hsp).
  fold sp sp1 sp2 return_PC. cbn [snd mem bus_log].
  repeat split.
  - replace (0x100 + sp =? 0x100 + sp2) with false
      by (symmetry; apply Z.eqb_neq; lia).
    replace (0x100 + sp =? 0x100 + sp1) with false
      by (symmetry; apply Z.eqb_neq; lia).
    now rewrite Z.eqb_refl.
  - replace (0x100 + sp1 =? 0x100 + sp2) with false
      by (symmetry; apply Z.eqb_neq; lia).
    now rewrite Z.eqb_refl.
  - eexists. reflexivity.
Qed.

Lemma BRK_pushes_PC_plus_2_witness :
  let s := exec fetch_program_byte brk_machine in
  let s' := exec (case_BRK_IMP 7) s in
  mem s' 0x01FF = 0x02 /\ mem s' 0x01FE = 0x03.
Proof.
  intros s s'.
  assert (Hsp : is_Byte (SP (cpu s))) 
    by (vm_compute; split; [discriminate | reflexivity]).
  pose proof (BRK_pushes_PC_plus_2 s 7 Hsp) as H. cbv zeta in H.
  destruct H as (Hhi & Hlo & _). split.
  - exact Hhi.
  - exact Hlo.
Defined.

(** ** Program fetch and page crossing *)

Lemma fetch_program_byte_eq s :
  fetch_program_byte s =
  (mem s (to_Word (PC (cpu s))),
   mkMachine
     (mkCPU (to_Word (PC (cpu s) + 1)) (SP (cpu s)) (regs (cpu s))
            (flags (cpu s)))
     (mem s)
     (BusRead (to_Word (PC (cpu s))) :: bus_log s)).
Proof.
  unfold fetch_program_byte, bind, rd. rewrite bus_read_eq. reflexivity.
Qed.

Lemma set_NZ_flags_eq s :
  let a := A (regs (cpu s)) in
  set_NZ_flags s =
  (tt,
   with_flags
     (flag_write Flags.N (Z.land (Z.shiftr a 7) 1)
        (flag_write Flags.Z (c_bool (a =? 0)) (flags (cpu s)))) s).
Proof.
  intros a. unfold set_NZ_flags, bind, rd_A, rd.
  rewrite cpu_set_flag_eq. cbn [with_flags cpu regs A].
  rewrite cpu_set_flag_eq. reflexivity.
Qed.

(** Two bytes assembled little-endian. *)
Lemma land_shiftl_8 lo hi : is_Byte lo -> Z.land lo (Z.shiftl hi 8) = 0.
Proof.
  unfold is_Byte. intros Hlo. apply Z.bits_inj'. intros n Hn.
  rewrite Z.land_spec, Z.bits_0.
  destruct (Z.ltb_spec n 8) as [Hlt | Hge].
  - rewrite Z.shiftl_spec_low by lia. apply andb_false_r.
  - replace (Z.testbit lo n) with false; [reflexivity | ].
    symmetry. destruct (Z.eq_dec lo 0) as [-> | Hnz]; [apply Z.bits_0 | ].
    apply Z.bits_above_log2; [lia | ].
    apply Z.lt_le_trans with 8; [ | lia ].
    apply Z.log2_lt_pow2; [lia | ]. change (2 ^ 8) with 256. lia.
Qed.

Lemma lor_shiftl_8 lo hi :
  is_Byte lo -> Z.lor lo (Z.shiftl hi 8) = lo + 256 * hi.
Proof.
  intros Hlo.
  rewrite <- Z.lxor_lor by now apply land_shiftl_8.
  rewrite <- Z.add_nocarry_lxor by now apply land_shiftl_8.
  rewrite Z.shiftl_mul_pow2 by lia. change (2 ^ 8) with 256. lia.
Qed.

Lemma testbit_0xFF00 n :
  0 <= n -> Z.testbit 0xFF00 n = (8 <=? n) && (n <? 16).
Proof.
  intros Hn. change 0xFF00 with (Z.shiftl (Z.ones 8) 8).
  destruct (Z.leb_spec 8 n) as [H8 | H8].
  - rewrite Z.shiftl_spec by lia.
    destruct (Z.ltb_spec n 16) as [H16 | H16].
    + apply Z.ones_spec_low. lia.
    + apply Z.ones_spec_high. lia.
  - apply Z.shiftl_spec_low. lia.
Qed.

(** The page of a word: masking with 0xFF00 keeps the high byte. *)
Lemma land_0xFF00 w : is_Word w -> Z.land w 0xFF00 = 256 * (w / 256).
Proof.
  unfold is_Word. intros Hw. apply Z.bits_inj'. intros n Hn.
  rewrite Z.land_spec, testbit_0xFF00 by assumption.
  rewrite Z.mul_comm. change 256 with (2 ^ 8).
  rewrite <- Z.shiftl_mul_pow2, <- Z.shiftr_div_pow2 by lia.
  destruct (Z.leb_spec 8 n) as [H8 | H8].
  - rewrite Z.shiftl_spec, Z.shiftr_spec by lia.
    replace (n - 8 + 8) with n by lia.
    destruct (Z.ltb_spec n 16) as [H16 | H16].
    + cbn. apply andb_true_r.
    + cbn. rewrite andb_false_r.
      destruct (Z.eq_dec w 0) as [-> | Hnz]; [now rewrite Z.bits_0 | ].
      symmetry. apply Z.bits_above_log2; [lia | ].
      apply Z.lt_le_trans with 16; [ | lia ].
      apply Z.log2_lt_pow2; [lia | ]. change (2 ^ 16) with 65536. lia.
  - rewrite Z.shiftl_spec_low by lia. cbn. apply andb_false_r.
Qed.

Lemma same_page_eqb a b :
  is_Word a -> is_Word b ->
  (Z.land a 0xFF00 =? Z.land b 0xFF00) = (a / 256 =? b / 256).
Proof.
  intros Ha Hb. rewrite !land_0xFF00 by assumption.
  destruct (Z.eqb_spec (a / 256) (b / 256)) as [E | E].
  - rewrite E. apply Z.eqb_refl.
  - apply Z.eqb_neq. lia.
Qed.

Lemma to_Word_idem v : to_Word (to_Word v) = to_Word v.
Proof. unfold to_Word. now rewrite Z.mod_mod by lia. Qed.

Lemma to_Word_add_l a b : to_Word (to_Word a + b) = to_Word (a + b).
Proof. unfold to_Word. now rewrite Z.add_mod_idemp_l by lia. Qed.

(** ** LDA Absolute,X *)

(** C8: when the opcode at [PC] is 0xBD and the two bytes after it hold the
    base address, one pass of the loop loads A from the effective address
    [(base + X) mod 65536] (the last bus access of the pass is the read at
    that address) and takes [4 + penalty] cycles off the budget, where the
    penalty is 1 exactly when the high byte of the effective address differs
    from the high byte of the base, and 0 otherwise.  With base 0x03FF and
    X = 0x01 the effective address is 0x0400 and 5 cycles are deducted. *)
Theorem LDA_ABSX_page_cross (s : machine) (cycles : Byte) :
  is_Word (PC (cpu s)) ->
  mem s (PC (cpu s)) = OPC_LDA_ABSX ->
  let lo := mem s (to_Word (PC (cpu s) + 1)) in
  let hi := mem s (to_Word (PC (cpu s) + 2)) in
  let base := lo + 256 * hi in
  let x := X (regs (cpu s)) in
  let addr := to_Word (base + x) in
  let penalty := if addr / 256 =? base / 256 then 0 else 1 in
  let r := loop_body cycles s in
  is_Byte lo -> is_Byte hi -> is_Byte x -> is_Byte (mem s addr) ->
  A (regs (cpu (snd r))) = mem s addr /\
  hd_error (bus_log (snd r)) = Some (BusRead addr) /\
  fst r = sub_cycles cycles (4 + penalty) /\
  (base = 0x03FF -> x = 0x01 ->
   addr = 0x0400 /\ fst r = sub_cycles cycles 5).
Proof.
  intros Hpc Hop lo hi base x addr penalty r Hlo Hhi Hx Hv.
  assert (Hbase : is_Word base).
  { unfold is_Byte, is_Word in *. subst base. lia. }
  assert (Er : r =
    (sub_cycles cycles (4 + penalty),
     with_flags
       (flag_write Flags.N (Z.land (Z.shiftr (mem s addr) 7) 1)
          (flag_write Flags.Z (c_bool (mem s addr =? 0)) (flags (cpu s))))
       (mkMachine
          (mkCPU (to_Word (PC (cpu s) + 3)) (SP (cpu s))
                 (mkRegs (mem s addr) x (Y (regs (cpu s)))) (flags (cpu s)))
          (mem s)
          (BusRead addr :: BusRead (to_Word (PC (cpu s) + 2)) ::
           BusRead (to_Word (PC (cpu s) + 1)) :: BusRead (PC (cpu s)) ::
           bus_log s)))).
  { subst r. unfold loop_body, bind at 1. rewrite fetch_program_byte_eq.
    rewrite (to_Word_id _ Hpc), Hop.
    change (dispatch OPC_LDA_ABSX cycles) with (case_LDA_ABSX cycles).
    unfold case_LDA_ABSX.
    unfold bind at 1, rd_X at 1, rd at 1.
    cbn [cpu SP PC regs flags mem bus_log X].
    unfold bind at 1, indexed_LDA_ABS.
    unfold bind at 1, fetch_program_word.
    unfold bind at 1. rewrite fetch_program_byte_eq.
    unfold bind at 1. rewrite fetch_program_byte_eq.
    cbn [cpu SP PC regs flags mem bus_log X ret]. cbv zeta.
    unfold bind at 1. rewrite bus_read_eq.
    unfold bind at 1, wr_A, upd_cpu, ret.
    unfold bind at 1. rewrite set_NZ_flags_eq.
    cbn [cpu SP PC regs flags mem bus_log X A with_flags].
    rewrite !to_Word_idem, !to_Word_add_l, <- !Z.add_assoc.
    change (1 + 1) with 2. change (1 + 2) with 3. fold lo hi x.
    rewrite (lor_shiftl_8 lo hi Hlo). fold base.
    rewrite (to_Word_id base Hbase), (to_Byte_id x Hx). fold addr.
    rewrite (to_Byte_id _ Hv).
    rewrite (same_page_eqb addr base (to_Word_range _) Hbase).
    unfold sub_cycles. subst penalty.
    destruct (addr / 256 =? base / 256); reflexivity. }
  rewrite Er. cbn [fst snd with_flags cpu regs A bus_log hd_error].
  split; [reflexivity | ]. split; [reflexivity | ].
  split; [reflexivity | ].
  intros Eb Ex. subst penalty addr. rewrite Eb, Ex. split; reflexivity.
Qed.

Lemma LDA_ABSX_page_cross_witness :
  A (regs (cpu (snd (loop_body 5 lda_absx_machine)))) = 0x77 /\
  fst (loop_body 5 lda_absx_machine) = 0.
Proof.
  pose proof (LDA_ABSX_page_cross lda_absx_machine 5) as H.
  cbv zeta in H.
  destruct H as (HA & _ & _ & H5).
  - vm_compute. split; [discriminate | reflexivity].
  - reflexivity.
  - vm_compute. split; [discriminate | reflexivity].
  - vm_compute. split; [discriminate | reflexivity].
  - vm_compute. split; [discriminate | reflexivity].
  - vm_compute. split; [discriminate | reflexivity].
  - split.
    + exact HA.
    + apply H5; reflexivity.
Defined.

(** ** The budget is a byte: overshoot wraps *)

(** On a memory filled with 0xA9 every pass of the loop is [LDA #$A9]: it
    takes 2 off the budget (mod 256) and leaves the memory as it is. *)
Lemma lda_loop_pass (s : machine) (cycles : Byte) :
  (forall a, mem s a = 0xA9) ->
  fst (loop_body cycles s) = sub_cycles cycles 2 /\
  (forall a, mem (snd (loop_body cycles s)) a = 0xA9).
Proof.
  intros Hmem.
  assert (E : exists s', loop_body cycles s = (sub_cycles cycles 2, s') /\
                         mem s' = mem s).
  { unfold loop_body, bind at 1. rewrite fetch_program_byte_eq, Hmem.
    change (dispatch 0xA9 cycles) with (case_LDA_IM cycles).
    unfold case_LDA_IM.
    unfold bind at 1. rewrite fetch_program_byte_eq.
    unfold bind at 1, wr_A, upd_cpu.
    unfold bind at 1. rewrite set_NZ_flags_eq.
    eexists. split; reflexivity. }
  destruct E as (s' & -> & Hm). cbn [fst snd]. rewrite Hm.
  split; [reflexivity | exact Hmem].
Qed.

Lemma odd_budget_stays_odd (cycles : Byte) :
  is_Byte cycles -> Z.odd cycles = true ->
  is_Byte (sub_cycles cycles 2) /\ Z.odd (sub_cycles cycles 2) = true.
Proof.
  intros Hb Hodd. split; [apply to_Byte_range | ].
  unfold is_Byte in Hb. unfold sub_cycles, to_Byte.
  destruct (Z.eq_dec cycles 0) as [-> | H0]; [discriminate Hodd | ].
  destruct (Z.eq_dec cycles 1) as [-> | H1]; [reflexivity | ].
  rewrite Z.mod_small by lia.
  rewrite Z.odd_sub, Hodd. reflexivity.
Qed.

Lemma lda_loop_never_returns (fuel : nat) : forall (cycles : Byte) s,
  (forall a, mem s a = 0xA9) ->
  is_Byte cycles -> Z.odd cycles = true ->
  while_cycles fuel cycles s = None.
Proof.
  induction fuel as [| fuel IH]; intros cycles s Hmem Hb Hodd;
    assert (Hpos : (cycles >? 0) = true)
      by (apply Z.gtb_lt; unfold is_Byte in Hb;
          destruct (Z.eq_dec cycles 0) as [-> | H0];
          [discriminate Hodd | lia]);
    cbn [while_cycles]; rewrite Hpos.
  - reflexivity.
  - destruct (lda_loop_pass s cycles Hmem) as [Hc Hm].
    destruct (loop_body cycles s) as [cycles' s']. cbn [fst snd] in Hc, Hm.
    subst cycles'.
    destruct (odd_budget_stays_odd cycles Hb Hodd) as [Hb' Hodd'].
    apply IH; assumption.
Qed.

(** C1 fails on the code, in both its parts.  With a budget of 1, [LDA #$42]
    (2 cycles) completes and leaves the [Byte] budget at 255, not at zero or
    below, so the loop test succeeds again: [cpu_execute] does not return
    after that instruction, and executes 73 further instructions before the
    budget happens to hit 0.  On a memory filled with 0xA9 the budget stays
    odd for ever and [cpu_execute] with budget 1 never returns, however many
    passes are allowed. *)
Theorem cpu_execute_overshoot_wraps :
  fst (loop_body 1 lda_im_machine) = 255 /\
  cpu_execute 1 1 lda_im_machine = None /\
  cpu_execute 73 1 lda_im_machine = None /\
  cpu_execute 74 1 lda_im_machine <> None /\
  (forall fuel, cpu_execute fuel 1 lda_loop_machine = None).
Proof.
  split; [vm_compute; reflexivity | ].
  split; [vm_compute; reflexivity | ].
  split; [vm_compute; reflexivity | ].
  split; [vm_compute; discriminate | ].
  intros fuel. unfold cpu_execute. apply lda_loop_never_returns.
  - reflexivity.
  - apply to_Byte_range.
  - reflexivity.
Qed.

(** ** Reading a flag after flag writes *)

Lemma bit_extract a k :
  0 <= k -> Z.land (Z.shiftr a k) 1 = Z.b2z (Z.testbit a k).
Proof.
  intros Hk. rewrite Z.testbit_spec' by assumption.
  change 1 with (Z.ones 1). rewrite Z.land_ones by lia.
  rewrite Z.shiftr_div_pow2 by assumption. reflexivity.
Qed.

Lemma to_Byte_b2z b : to_Byte (Z.b2z b) = Z.b2z b.
Proof. destruct b; reflexivity. Qed.

Lemma flag_of_testbit g s :
  flag_of g s = Z.b2z (Z.testbit (flags (cpu s)) (Flags.bit g)).
Proof.
  unfold flag_of, eval, cpu_read_flag, bind, rd, ret. cbn [fst].
  rewrite bit_extract by (destruct g; cbn; lia). apply to_Byte_b2z.
Qed.

Lemma mask_testbit f n :
  0 <= n ->
  Z.testbit (to_Byte (Z.shiftl 1 (Flags.bit f))) n = (n =? Flags.bit f).
Proof.
  intros Hn.
  destruct f; cbn [Flags.bit];
    match goal with
    | |- Z.testbit (to_Byte (Z.shiftl 1 ?k)) n = _ =>
        change (to_Byte (Z.shiftl 1 k)) with (2 ^ k);
        rewrite Z.pow2_bits_eqb by lia; apply Z.eqb_sym
    end.
Qed.

Lemma testbit_flag_write f v p n :
  0 <= n < 8 ->
  Z.testbit (flag_write f v p) n =
  (if to_Byte v =? 0
   then Z.testbit p n && negb (n =? Flags.bit f)
   else Z.testbit p n || (n =? Flags.bit f)) || (n =? Flags.bit Flags.U).
Proof.
  intros Hn. unfold flag_write. cbv zeta.
  rewrite testbit_to_Byte, Z.lor_spec, mask_testbit by lia.
  destruct (to_Byte v =? 0); rewrite testbit_to_Byte by lia.
  - rewrite Z.land_spec, Z.lnot_spec, mask_testbit by lia. reflexivity.
  - rewrite Z.lor_spec, mask_testbit by lia. reflexivity.
Qed.

(** A write of flag [f] leaves every other flag but U as it was ... *)
Lemma testbit_flag_write_other f v p n :
  0 <= n < 8 -> n <> Flags.bit f -> n <> Flags.bit Flags.U ->
  Z.testbit (flag_write f v p) n = Z.testbit p n.
Proof.
  intros Hn Hf HU. rewrite testbit_flag_write by assumption.
  apply Z.eqb_neq in Hf, HU. rewrite Hf, HU.
  destruct (to_Byte v =? 0); cbn [negb];
    now rewrite ?andb_true_r, ?orb_false_r.
Qed.

(** ... and sets [f] exactly when the value written is not zero. *)
Lemma testbit_flag_write_same f v p :
  f <> Flags.U ->
  Z.testbit (flag_write f v p) (Flags.bit f) = negb (to_Byte v =? 0).
Proof.
  intros Hf. rewrite testbit_flag_write by (destruct f; cbn; lia).
  rewrite Z.eqb_refl.
  replace (Flags.bit f =? Flags.bit Flags.U) with false
    by (destruct f; try reflexivity; congruence).
  destruct (to_Byte v =? 0); cbn [negb];
    now rewrite ?andb_false_r, ?orb_true_r.
Qed.

Lemma c_bool_nonzero b : negb (to_Byte (c_bool b) =? 0) = b.
Proof. destruct b; reflexivity. Qed.

Lemma bit7_nonzero a :
  negb (to_Byte (Z.land (Z.shiftr a 7) 1) =? 0) = Z.testbit a 7.
Proof.
  rewrite bit_extract by lia. destruct (Z.testbit a 7); reflexivity.
Qed.

Lemma land_0x80 r : Z.land r 0x80 = if Z.testbit r 7 then 0x80 else 0.
Proof.
  apply Z.bits_inj'. intros n Hn. rewrite Z.land_spec.
  change 0x80 with (2 ^ 7). rewrite Z.pow2_bits_eqb by lia.
  destruct (Z.eqb_spec 7 n) as [<- | Hne].
  - destruct (Z.testbit r 7); [ | now rewrite Z.bits_0 ].
    rewrite Z.pow2_bits_eqb by lia. reflexivity.
  - rewrite andb_false_r.
    destruct (Z.testbit r 7); [ | now rewrite Z.bits_0 ].
    rewrite Z.pow2_bits_eqb by lia. symmetry. now apply Z.eqb_neq.
Qed.

Lemma land_0x80_nonzero r :
  negb (to_Byte (Z.land r 0x80) =? 0) = Z.testbit r 7.
Proof. rewrite land_0x80. destruct (Z.testbit r 7); reflexivity. Qed.

(** ** ADC immediate *)

(** The sum of two bytes and a carry fits a word. *)
Lemma adc_sum_word a m s :
  is_Byte a -> is_Byte m -> is_Word (a + m + flag_of Flags.C s).
Proof.
  unfold is_Byte, is_Word. intros Ha Hm. rewrite flag_of_testbit.
  destruct (Z.testbit _ _); cbn [Z.b2z]; lia.
Qed.

Lemma cpu_read_flag_eq g s : cpu_read_flag g s = (flag_of g s, s).
Proof. reflexivity. Qed.

Lemma case_ADC_IM_eq (s : machine) (cycles : Byte) :
  let a := A (regs (cpu s)) in
  let m := mem s (to_Word (PC (cpu s))) in
  let result := to_Word (a + m + flag_of Flags.C s) in
  case_ADC_IM cycles s =
  (sub_cycles cycles 2,
   mkMachine
     (mkCPU (to_Word (PC (cpu s) + 1)) (SP (cpu s))
        (mkRegs (to_Byte (Z.land result 0xFF))
                (X (regs (cpu s))) (Y (regs (cpu s))))
        (flag_write Flags.V (adc_overflow a m result)
           (flag_write Flags.C (c_bool (result >? 0xFF))
              (flag_write Flags.N (Z.land (Z.shiftr a 7) 1)
                 (flag_write Flags.Z (c_bool (a =? 0)) (flags (cpu s)))))))
     (mem s)
     (BusRead (to_Word (PC (cpu s))) :: bus_log s)).
Proof.
  intros a m result. unfold case_ADC_IM.
  unfold bind at 1. rewrite fetch_program_byte_eq.
  unfold bind at 1, rd_A at 1, rd at 1.
  unfold bind at 1. rewrite cpu_read_flag_eq.
  unfold bind at 1. rewrite set_NZ_flags_eq.
  unfold bind at 1. rewrite cpu_set_flag_eq.
  unfold bind at 1, rd_A at 1, rd at 1.
  unfold bind at 1. rewrite cpu_set_flag_eq.
  unfold bind at 1, wr_A, upd_cpu, ret.
  reflexivity.
Qed.

Lemma Part000_case_ADC_IM_eq (s : machine) (cycles : Byte) :
  let a := A (regs (cpu s)) in
  let m := mem s (to_Word (PC (cpu s))) in
  let result := to_Word (a + m + flag_of Flags.C s) in
  Part000.case_ADC_IM cycles s =
  (sub_cycles cycles 2,
   mkMachine
     (mkCPU (to_Word (PC (cpu s) + 1)) (SP (cpu s))
        (mkRegs (to_Byte (Z.land result 0xFF))
                (X (regs (cpu s))) (Y (regs (cpu s))))
        (flag_write Flags.V (adc_overflow a m result)
           (flag_write Flags.N (Z.land result 0x80)
              (flag_write Flags.Z (c_bool (Z.land result 0xFF =? 0))
                 (flag_write Flags.C (c_bool (result >? 0xFF))
                    (flags (cpu s)))))))
     (mem s)
     (BusRead (to_Word (PC (cpu s))) :: bus_log s)).
Proof.
  intros a m result. unfold Part000.case_ADC_IM.
  unfold bind at 1. rewrite fetch_program_byte_eq.
  unfold bind at 1, rd_A at 1, rd at 1.
  unfold bind at 1. rewrite cpu_read_flag_eq.
  unfold bind at 1. rewrite cpu_set_flag_eq.
  unfold bind at 1. rewrite cpu_set_flag_eq.
  unfold bind at 1. rewrite cpu_set_flag_eq.
  unfold bind at 1, rd_A at 1, rd at 1.
  unfold bind at 1. rewrite cpu_set_flag_eq.
  unfold bind at 1, wr_A, upd_cpu, ret.
  reflexivity.
Qed.

(** What the ADC case of the CPU core does, for every accumulator, operand
    and carry-in: A and C come from the sum, but Z and N come from the
    accumulator as it was before the addition. *)
Lemma case_ADC_IM_spec (s : machine) (cycles : Byte) :
  let a := A (regs (cpu s)) in
  let m := mem s (to_Word (PC (cpu s))) in
  let r := a + m + flag_of Flags.C s in
  let s' := exec (case_ADC_IM cycles) s in
  is_Byte a -> is_Byte m ->
  A (regs (cpu s')) = r mod 256 /\
  flag_of Flags.C s' = Z.b2z (r >? 0xFF) /\
  flag_of Flags.Z s' = Z.b2z (a =? 0) /\
  flag_of Flags.N s' = Z.b2z (Z.testbit a 7).
Proof.
  intros a m r s' Ha Hm.
  pose proof (adc_sum_word a m s Ha Hm) as Hr. fold r in Hr.
  subst s'. unfold exec. rewrite case_ADC_IM_eq. fold a m r.
  rewrite (to_Word_id r Hr), !flag_of_testbit.
  cbn [snd cpu regs flags A].
  repeat split.
  - rewrite land_0xFF. unfold to_Byte. now rewrite Z.mod_mod by lia.
  - rewrite testbit_flag_write_other by (cbn; lia).
    rewrite testbit_flag_write_same by discriminate.
    now rewrite c_bool_nonzero.
  - rewrite !testbit_flag_write_other by (cbn; lia).
    rewrite testbit_flag_write_same by discriminate.
    now rewrite c_bool_nonzero.
  - rewrite !testbit_flag_write_other by (cbn; lia).
    rewrite testbit_flag_write_same by discriminate.
    now rewrite bit7_nonzero.
Qed.

(** The ADC case of the earlier core sets the flags after the addition and
    from the sum: for every accumulator, operand and carry-in it does what
    C2 states. *)
Lemma Part000_case_ADC_IM_spec (s : machine) (cycles : Byte) :
  let a := A (regs (cpu s)) in
  let m := mem s (to_Word (PC (cpu s))) in
  let r := a + m + flag_of Flags.C s in
  let s' := exec (Part000.case_ADC_IM cycles) s in
  is_Byte a -> is_Byte m ->
  A (regs (cpu s')) = r mod 256 /\
  flag_of Flags.C s' = Z.b2z (r >? 0xFF) /\
  flag_of Flags.Z s' = Z.b2z (r mod 256 =? 0) /\
  flag_of Flags.N s' = Z.b2z (Z.testbit (r mod 256) 7).
Proof.
  intros a m r s' Ha Hm.
  pose proof (adc_sum_word a m s Ha Hm) as Hr. fold r in Hr.
  subst s'. unfold exec. rewrite Part000_case_ADC_IM_eq. fold a m r.
  rewrite (to_Word_id r Hr), !flag_of_testbit.
  cbn [snd cpu regs flags A].
  repeat split.
  - rewrite land_0xFF. unfold to_Byte. now rewrite Z.mod_mod by lia.
  - rewrite !testbit_flag_write_other by (cbn; lia).
    rewrite testbit_flag_write_same by discriminate.
    now rewrite c_bool_nonzero.
  - rewrite !testbit_flag_write_other by (cbn; lia).
    rewrite testbit_flag_write_same by discriminate.
    now rewrite c_bool_nonzero, land_0xFF.
  - rewrite !testbit_flag_write_other by (cbn; lia).
    rewrite testbit_flag_write_same by discriminate.
    rewrite land_0x80_nonzero. change 256 with (2 ^ 8).
    now rewrite Z.mod_pow2_bits_low by lia.
Qed.

(** C2 fails on the code at A = 0xFF, M = 0x01, carry-in 0.  The sum is
    0x100: A becomes 0x00 and C is set, as claimed; but [set_NZ_flags] runs
    before A is assigned, so Z and N are taken from the old A = 0xFF: Z = 0
    and N = 1, where the truncated result 0x00 asks for Z = 1 and N = 0. *)
Theorem ADC_IM_sets_NZ_from_old_A :
  exists s',
    cpu_execute 1 2 adc_machine = Some s' /\
    A (regs (cpu adc_machine)) = 0xFF /\
    flag_of Flags.C adc_machine = 0 /\
    A (regs (cpu s')) = 0x00 /\
    flag_of Flags.C s' = 1 /\
    flag_of Flags.Z s' = 0 /\
    flag_of Flags.N s' = 1.
Proof.
  eexists. split; [vm_compute; reflexivity | ].
  vm_compute. repeat split.
Qed.

(** ** Branches *)

(** C4 fails on the code at the harness's "BNE taken" input (Z = 0, offset
    +5, budget 3).  The BNE case has no [break]: after the taken BNE has set
    PC to 0x0207, the same pass runs the BEQ, BPL, BMI, BVC and BVS cases and
    then BIT zero-page.  Seven operand bytes are fetched instead of one (at
    0x0201 and at 0x0207..0x020C, followed by the BIT read of 0x0000), PC
    ends at 0x020D instead of 0x0207, 18 cycles are charged instead of 3 (the
    budget wraps to 241, so [cpu_execute] does not return after this pass),
    and BIT sets the Z flag that was clear.  The same holds from each of the
    six labels: one pass on BNE, BEQ, BPL, BMI, BVC, BVS makes 9, 8, 7, 6, 5
    and 4 bus accesses, where a self-contained branch makes 2 (opcode and
    operand), as BCC and BCS do. *)
Theorem BNE_falls_through :
  let r := loop_body 3 bne_machine in
  flag_of Flags.Z bne_machine = 0 /\
  fst r = to_Byte (3 - 18) /\
  PC (cpu (snd r)) = 0x020D /\
  flag_of Flags.Z (snd r) = 1 /\
  firstn 9 (bus_log (snd r)) =
    [BusRead 0x0000; BusRead 0x020C; BusRead 0x020B; BusRead 0x020A;
     BusRead 0x0209; BusRead 0x0208; BusRead 0x0207; BusRead 0x0201;
     BusRead 0x0200] /\
  cpu_execute 1 3 bne_machine = None /\
  map (fun opcode => bus_accesses_of_pass 3 (branch_machine opcode))
      [OPC_BNE_REL; OPC_BEQ_REL; OPC_BPL_REL; OPC_BMI_REL; OPC_BVC_REL;
       OPC_BVS_REL; OPC_BCC_REL; OPC_BCS_REL]
  = [9; 8; 7; 6; 5; 4; 2; 2]%nat.
Proof.
  vm_compute. repeat split.
Qed.

(** ** ASL zero-page,X *)

(** C6 fails on the code at the harness's "ASL ZP,X" input (operand 0x10,
    X = 4, 0x08 at 0x14), here with 0x21 at 0x10.  The effective address
    0x14 is computed and dropped: the byte is read at 0x10 and the shifted
    value 0x42 is written back to 0x10, the last two bus accesses of the
    call, while 0x14 still holds 0x08. *)
Theorem ASL_ZPX_ignores_X :
  exists s',
    cpu_execute 1 6 asl_zpx_machine = Some s' /\
    X (regs (cpu asl_zpx_machine)) = 0x04 /\
    mem asl_zpx_machine 0x10 = 0x21 /\
    mem asl_zpx_machine 0x14 = 0x08 /\
    mem s' 0x14 = 0x08 /\
    mem s' 0x10 = 0x42 /\
    firstn 2 (bus_log s') = [BusWrite 0x10 0x42; BusRead 0x10].
Proof.
  eexists. split; [vm_compute; reflexivity | ].
  vm_compute. repeat split.
Qed.

(** * Further properties of the code *)

(** ** Bus and memory *)

(** X1: a byte written through the bus is what a later read of the same
    address returns (the data reduced to a byte, the address to a word); a
    read of any other address returns what memory held before the write. *)
Theorem bus_read_after_write (addr data addr' : Z) (s : machine) :
  eval (bus_write addr data;; bus_read addr') s =
  if to_Word addr' =? to_Word addr then to_Byte data
  else mem s (to_Word addr').
Proof.
  unfold eval, bind. rewrite bus_write_eq, bus_read_eq. reflexivity.
Qed.

Lemma word_succ_neq a : to_Word (to_Word a + 1) <> to_Word a.
Proof.
  pose proof (to_Word_range a) as H. unfold is_Word in H.
  unfold to_Word at 1.
  destruct (Z.eq_dec (to_Word a) 65535) as [-> | Hne].
  - discriminate.
  - rewrite Z.mod_small by lia. lia.
Qed.

Lemma word_split v : is_Word v -> v mod 256 + 256 * (v / 256) = v.
Proof. intros _. pose proof (Z.div_mod v 256). lia. Qed.

Lemma store_then_fetch_word_eq (addr value : Z) (s : machine) :
  exists s', store_then_fetch_word addr value s = (to_Word value, s') /\
             PC (cpu s') = to_Word (addr + 2).
Proof.
  unfold store_then_fetch_word, bus_write_word.
  unfold bind at 1. unfold bind at 1. rewrite bus_write_eq.
  rewrite bus_write_eq.
  unfold bind at 1, wr_PC, upd_cpu.
  unfold fetch_program_word.
  unfold bind at 1. rewrite fetch_program_byte_eq.
  unfold bind at 1. rewrite fetch_program_byte_eq.
  cbn [cpu SP PC regs flags mem bus_log ret fst snd].
  rewrite !to_Word_idem.
  pose proof (word_succ_neq addr) as Hne.
  rewrite (to_Word_add_l addr 1) in Hne |- *.
  rewrite Z.eqb_refl.
  replace (to_Word addr =? to_Word (addr + 1)) with false
    by (symmetry; apply Z.eqb_neq; congruence).
  rewrite !to_Word_add_l, <- !Z.add_assoc. change (1 + 1) with 2.
  rewrite Z.eqb_refl.
  pose proof (to_Word_range value) as Hv.
  rewrite land_0xFF, shiftr_8.
  assert (Hlo : is_Byte (to_Word value mod 256))
    by (apply Z.mod_pos_bound; lia).
  assert (Hhi : is_Byte (to_Word value / 256)).
  { unfold is_Word in Hv. split;
      [apply Z.div_pos; lia | apply Z.div_lt_upper_bound; lia]. }
  rewrite (to_Byte_id _ Hlo), (to_Byte_id _ Hhi).
  rewrite (lor_shiftl_8 _ _ Hlo), (word_split _ Hv), to_Word_idem.
  unfold ret. eexists. split; reflexivity.
Qed.

(** X2: a word stored with [bus_write_word] at any address, also at 0xFFFF
    where the second byte wraps to address 0, is the word that
    [fetch_program_word] assembles when [PC] is set to that address; the
    fetch leaves [PC] two bytes further (mod 65536). *)
Theorem bus_write_word_fetch_roundtrip (addr value : Z) (s : machine) :
  eval (store_then_fetch_word addr value) s = to_Word value /\
  PC (cpu (exec (store_then_fetch_word addr value) s)) = to_Word (addr + 2).
Proof.
  destruct (store_then_fetch_word_eq addr value s) as (s' & E & Hpc).
  unfold eval, exec. rewrite E. split; [reflexivity | exact Hpc].
Qed.

(** ** Flag primitives *)

Lemma flag_bit_range g : 0 <= Flags.bit g < 8.
Proof. destruct g; cbn; lia. Qed.

Lemma flag_of_flag_write f g v p s :
  flag_of g (with_flags (flag_write f v p) s) =
  if Flags.bit g =? Flags.bit Flags.U then 1
  else if Flags.bit g =? Flags.bit f then Z.b2z (negb (to_Byte v =? 0))
  else Z.b2z (Z.testbit p (Flags.bit g)).
Proof.
  rewrite flag_of_testbit. cbn [with_flags cpu flags].
  rewrite testbit_flag_write by apply flag_bit_range.
  destruct (Flags.bit g =? Flags.bit Flags.U);
    [ now rewrite orb_true_r | rewrite orb_false_r ].
  destruct (Flags.bit g =? Flags.bit f), (to_Byte v =? 0); cbn [negb];
    now rewrite ?andb_false_r, ?andb_true_r, ?orb_true_r, ?orb_false_r.
Qed.

(** X3: after [cpu_set_flag flag value], reading a flag gives: 1 for U,
    whatever was written and to whichever flag (so [cpu_set_flag(U, 0)]
    cannot clear U); for the flag written, 1 when the value (as a byte) is
    not zero and 0 when it is; for every other flag, what it was before. *)
Theorem cpu_set_flag_then_read (f g : Flags.Flags) (v : Z) (s : machine) :
  flag_of g (exec (cpu_set_flag f v) s) =
  if Flags.bit g =? Flags.bit Flags.U then 1
  else if Flags.bit g =? Flags.bit f then Z.b2z (negb (to_Byte v =? 0))
  else flag_of g s.
Proof.
  unfold exec. rewrite cpu_set_flag_eq. cbn [snd].
  rewrite flag_of_flag_write, (flag_of_testbit g s). reflexivity.
Qed.

Lemma cpu_toggle_flag_eq f s :
  cpu_toggle_flag f s =
  (tt, with_flags
         (to_Byte (Z.lxor (flags (cpu s))
                          (to_Byte (Z.shiftl 1 (Flags.bit f))))) s).
Proof. reflexivity. Qed.

(** X4: [cpu_toggle_flag flag] inverts that flag and no other.  Unlike
    [cpu_set_flag] it does not force U: toggling U when it is 1 clears it. *)
Theorem cpu_toggle_flag_then_read (f g : Flags.Flags) (s : machine) :
  flag_of g (exec (cpu_toggle_flag f) s) =
  if Flags.bit g =? Flags.bit f then 1 - flag_of g s else flag_of g s.
Proof.
  unfold exec. rewrite cpu_toggle_flag_eq. cbn [snd].
  rewrite !flag_of_testbit. cbn [with_flags cpu flags].
  rewrite testbit_to_Byte by apply flag_bit_range.
  rewrite Z.lxor_spec, mask_testbit by apply flag_bit_range.
  destruct (Flags.bit g =? Flags.bit f),
           (Z.testbit (flags (cpu s)) (Flags.bit g)); reflexivity.
Qed.

Lemma byte_high_bits p n : is_Byte p -> 8 <= n -> Z.testbit p n = false.
Proof.
  unfold is_Byte. intros Hp Hn.
  destruct (Z.eq_dec p 0) as [-> | Hnz]; [apply Z.bits_0 | ].
  apply Z.bits_above_log2; [lia | ].
  apply Z.lt_le_trans with 8; [ | lia ].
  apply Z.log2_lt_pow2; [lia | ]. change (2 ^ 8) with 256. lia.
Qed.

Lemma lxor_byte_twice p m : is_Byte p ->
  to_Byte (Z.lxor (to_Byte (Z.lxor p m)) m) = p.
Proof.
  intros Hp. unfold to_Byte. change 256 with (2 ^ 8).
  apply Z.bits_inj'. intros n Hn.
  destruct (Z.ltb_spec n 8) as [Hlt | Hge].
  - rewrite Z.mod_pow2_bits_low, Z.lxor_spec by lia.
    rewrite Z.mod_pow2_bits_low, Z.lxor_spec by lia.
    now rewrite xorb_assoc, xorb_nilpotent, xorb_false_r.
  - rewrite Z.mod_pow2_bits_high by lia.
    symmetry. now apply byte_high_bits.
Qed.

(** X5: toggling the same flag twice gives back the status byte, when the
    status register holds a byte. *)
Theorem cpu_toggle_flag_twice (f : Flags.Flags) (s : machine) :
  is_Byte (flags (cpu s)) ->
  flags (cpu (exec (cpu_toggle_flag f;; cpu_toggle_flag f) s))
  = flags (cpu s).
Proof.
  intros Hp. unfold exec, bind.
  rewrite cpu_toggle_flag_eq, cpu_toggle_flag_eq.
  cbn [snd with_flags cpu flags].
  apply lxor_byte_twice. exact Hp.
Qed.

Lemma cpu_toggle_flag_twice_witness :
  flags (cpu (exec (cpu_toggle_flag Flags.U;; cpu_toggle_flag Flags.U)
                   brk_machine))
  = flags (cpu brk_machine).
Proof.
  apply (cpu_toggle_flag_twice Flags.U brk_machine).
  vm_compute. split; [discriminate | reflexivity].
Defined.

(** X6: [set_NZ_flags] sets Z exactly when A is 0 and N to bit 7 of A,
    leaves C, I, D, B and V as they were, and changes nothing but the status
    register. *)
Theorem set_NZ_flags_spec (s : machine) :
  let a := A (regs (cpu s)) in
  let s' := exec set_NZ_flags s in
  flag_of Flags.Z s' = Z.b2z (a =? 0) /\
  flag_of Flags.N s' = Z.b2z (Z.testbit a 7) /\
  (forall g, g <> Flags.Z -> g <> Flags.N -> g <> Flags.U ->
             flag_of g s' = flag_of g s) /\
  s' = with_flags (flags (cpu s')) s.
Proof.
  intros a s'. subst s'. unfold exec. rewrite set_NZ_flags_eq. fold a.
  cbn [snd]. repeat split.
  - rewrite flag_of_flag_write.
    change (Flags.bit Flags.Z =? Flags.bit Flags.U) with false.
    change (Flags.bit Flags.Z =? Flags.bit Flags.N) with false. cbv iota.
    rewrite testbit_flag_write_same by discriminate.
    now rewrite c_bool_nonzero.
  - rewrite flag_of_flag_write.
    change (Flags.bit Flags.N =? Flags.bit Flags.U) with false.
    change (Flags.bit Flags.N =? Flags.bit Flags.N) with true. cbv iota.
    now rewrite bit7_nonzero.
  - intros g HZ HN HU. rewrite flag_of_flag_write.
    replace (Flags.bit g =? Flags.bit Flags.U) with false
      by (destruct g; try reflexivity; congruence).
    replace (Flags.bit g =? Flags.bit Flags.N) with false
      by (destruct g; try reflexivity; congruence).
    rewrite testbit_flag_write_other;
      [ symmetry; apply flag_of_testbit | apply flag_bit_range | | ];
      destruct g; cbn; try lia; congruence.
Qed.

(** ** What the instructions leave alone *)

Lemma keeps_ret V (f : machine -> V) T (x : T) : keeps f (ret x).
Proof. intros s. reflexivity. Qed.

Lemma keeps_bind V (f : machine -> V) T R (c : M T) (k : T -> M R) :
  keeps f c -> (forall x, keeps f (k x)) -> keeps f (bind c k).
Proof.
  intros Hc Hk s. unfold bind.
  specialize (Hc s). destruct (c s) as [x s']. cbn [snd] in Hc.
  rewrite <- Hc. apply Hk.
Qed.

Lemma keeps_if V (f : machine -> V) T (b : bool) (c1 c2 : M T) :
  keeps f c1 -> keeps f c2 -> keeps f (if b then c1 else c2).
Proof. destruct b; auto. Qed.

(** A case label tested by [dispatch]: the case is entered with the
    opcode known to be that label. *)
Lemma keeps_if_label V (f : machine -> V) T (opcode label : Z)
      (c1 c2 : M T) :
  (opcode = label -> keeps f c1) -> keeps f c2 ->
  keeps f (if opcode =? label then c1 else c2).
Proof.
  intros H1 H2. destruct (Z.eqb_spec opcode label); auto.
Qed.

(** Walks through a computation; the leaves are the field accesses, the
    bus routines and [cpu_set_flag]. *)
Ltac keeps_step :=
  lazymatch goal with
  | |- keeps _ (ret _) => apply keeps_ret
  | |- keeps _ (bind _ _) => apply keeps_bind; [ | intro ]
  | |- keeps _ (if _ then _ else _) => apply keeps_if
  | |- keeps _ (let _ := _ in _) => cbv zeta
  | |- keeps _ (rd _) => intro; reflexivity
  | |- keeps _ (wr_PC _) => intro; reflexivity
  | |- keeps _ (wr_SP _) => intro; reflexivity
  | |- keeps _ (wr_A _) => intro; reflexivity
  | |- keeps _ (wr_flags _) => intro; reflexivity
  | |- keeps _ (bus_read _) => intro; rewrite bus_read_eq; reflexivity
  | |- keeps _ (bus_write _ _) => intro; rewrite bus_write_eq; reflexivity
  | |- keeps _ (cpu_set_flag _ _) =>
      intro; rewrite cpu_set_flag_eq; reflexivity
  | |- keeps _ ?c => let h := head_of c in unfold h
  end.

Ltac keeps_tac := repeat keeps_step.

(** Closes the cases of [dispatch]: a case either keeps the observation, or
    [absurd_label E] shows that the opcode cannot be its label ([E] is the
    equation between the two). *)
Ltac keeps_dispatch absurd_label :=
  unfold dispatch;
  repeat (apply keeps_if_label;
          [ let E := fresh "E" in
            intro E;
            first [ solve [ keeps_tac ] | exfalso; absurd_label E ]
          | ]);
  first [ solve [ keeps_tac ] | exfalso; absurd_label (@eq_refl Z 0) ].

Ltac label_excluded H E :=
  apply H; rewrite E; solve [ repeat first [ left; reflexivity | right ] ].

Ltac label_not_listed H E :=
  rewrite E in H; cbv in H; intuition discriminate.

(** No case of the switch writes X or Y. *)
Lemma dispatch_keeps_XY opcode c : keeps obs_XY (dispatch opcode c).
Proof. keeps_dispatch ltac:(fun E => fail). Qed.

(** Only the BRK case moves the stack pointer. *)
Lemma dispatch_keeps_SP opcode c :
  ~ In opcode [OPC_BRK_IMP] -> keeps obs_SP (dispatch opcode c).
Proof. intros H. keeps_dispatch ltac:(fun E => label_excluded H E). Qed.

(** Only the stores, the memory forms of ASL and BRK write memory. *)
Lemma dispatch_keeps_mem opcode c :
  ~ In opcode writing_labels -> keeps mem (dispatch opcode c).
Proof. intros H. keeps_dispatch ltac:(fun E => label_excluded H E). Qed.

(** A store changes no register, no flag and not the stack pointer. *)
Lemma dispatch_STA_keeps_regs opcode c :
  In opcode STA_labels -> keeps obs_regs_P_SP (dispatch opcode c).
Proof. intros H. keeps_dispatch ltac:(fun E => label_not_listed H E). Qed.

(** One pass of the loop keeps what the fetch and the dispatched case
    keep. *)
Lemma loop_body_keeps {V} (f : machine -> V) (c : Byte) (s : machine) :
  keeps f fetch_program_byte ->
  keeps f (dispatch (mem s (to_Word (PC (cpu s)))) c) ->
  f (exec (loop_body c) s) = f s.
Proof.
  intros Hf Hd. unfold exec, loop_body, bind.
  specialize (Hf s). rewrite fetch_program_byte_eq in Hf |- *.
  cbn [snd] in Hf. rewrite <- Hf. apply Hd.
Qed.

Lemma fetch_keeps_XY : keeps obs_XY fetch_program_byte.
Proof. keeps_tac. Qed.
Lemma fetch_keeps_SP : keeps obs_SP fetch_program_byte.
Proof. keeps_tac. Qed.
Lemma fetch_keeps_mem : keeps mem fetch_program_byte.
Proof. keeps_tac. Qed.
Lemma fetch_keeps_regs : keeps obs_regs_P_SP fetch_program_byte.
Proof. keeps_tac. Qed.

Lemma while_cycles_keeps_XY fuel : forall cycles s s',
  while_cycles fuel cycles s = Some s' -> obs_XY s' = obs_XY s.
Proof.
  induction fuel as [| fuel IH]; intros cycles s s' Hrun; cbn in Hrun.
  - destruct (cycles >? 0); [discriminate | ]. now injection Hrun as <-.
  - destruct (cycles >? 0); [ | now injection Hrun as <- ].
    pose proof (loop_body_keeps obs_XY cycles s fetch_keeps_XY
                  (dispatch_keeps_XY _ _)) as Hstep.
    unfold exec in Hstep.
    destruct (loop_body cycles s) as [cycles' s1]. cbn [snd] in Hstep.
    rewrite <- Hstep. exact (IH cycles' s1 s' Hrun).
Qed.

(** X7: whatever the program and the budget, X and Y are the same when
    [cpu_execute] returns as when it was called: no recognised opcode writes
    an index register. *)
Theorem cpu_execute_keeps_XY (fuel : nat) (cycles : Z) (s s' : machine) :
  cpu_execute fuel cycles s = Some s' ->
  X (regs (cpu s')) = X (regs (cpu s)) /\
  Y (regs (cpu s')) = Y (regs (cpu s)).
Proof.
  intros Hrun. apply while_cycles_keeps_XY in Hrun.
  unfold obs_XY in Hrun. injection Hrun as HX HY. now split.
Qed.

Lemma cpu_execute_keeps_XY_witness :
  X (regs (cpu (exec (loop_body 6) asl_zpx_machine))) = 0x04.
Proof.
  apply (cpu_execute_keeps_XY 1 6 asl_zpx_machine).
  vm_compute. reflexivity.
Defined.

(** X8: one pass of the loop on any opcode other than BRK (0x00), the
    unrecognised ones included, leaves the stack pointer as it was. *)
Theorem loop_body_keeps_SP (cycles : Byte) (s : machine) :
  mem s (to_Word (PC (cpu s))) <> OPC_BRK_IMP ->
  SP (cpu (exec (loop_body cycles) s)) = SP (cpu s).
Proof.
  intros Hop. apply (loop_body_keeps obs_SP); [exact fetch_keeps_SP | ].
  apply dispatch_keeps_SP. intros [E | []]. now apply Hop.
Qed.

Lemma loop_body_keeps_SP_witness :
  SP (cpu (exec (loop_body 3) bne_machine)) = 0xFF.
Proof.
  apply (loop_body_keeps_SP 3 bne_machine). vm_compute. discriminate.
Defined.

(** X9: one pass of the loop writes no memory byte unless the opcode is a
    store, a memory form of ASL, or BRK; loads, ADC, AND, BIT, the branches
    (with what they fall into) and unrecognised opcodes leave all of memory
    as it was. *)
Theorem loop_body_keeps_mem (cycles : Byte) (s : machine) :
  ~ In (mem s (to_Word (PC (cpu s)))) writing_labels ->
  mem (exec (loop_body cycles) s) = mem s.
Proof.
  intros Hop. apply (loop_body_keeps mem); [exact fetch_keeps_mem | ].
  now apply dispatch_keeps_mem.
Qed.

Lemma loop_body_keeps_mem_witness :
  mem (exec (loop_body 3) bne_machine) = mem bne_machine.
Proof.
  apply (loop_body_keeps_mem 3 bne_machine).
  vm_compute. intuition discriminate.
Defined.

(** X10: a store in any of its seven addressing modes leaves A, X, Y, the
    status register P and the stack pointer as they were. *)
Theorem STA_keeps_registers (cycles : Byte) (s : machine) :
  In (mem s (to_Word (PC (cpu s)))) STA_labels ->
  let s' := exec (loop_body cycles) s in
  regs (cpu s') = regs (cpu s) /\
  flags (cpu s') = flags (cpu s) /\
  SP (cpu s') = SP (cpu s).
Proof.
  intros Hop s'.
  assert (H : obs_regs_P_SP s' = obs_regs_P_SP s).
  { apply (loop_body_keeps obs_regs_P_SP); [exact fetch_keeps_regs | ].
    now apply dispatch_STA_keeps_regs. }
  unfold obs_regs_P_SP in H. injection H as H1 H2 H3. now repeat split.
Qed.

Lemma STA_keeps_registers_witness :
  flags (cpu (exec (loop_body 3) sta_machine)) = flags (cpu sta_machine).
Proof.
  apply (STA_keeps_registers 3 sta_machine).
  vm_compute. left. reflexivity.
Defined.

(** ** Unrecognised opcodes *)

Lemma dispatch_default opcode c :
  ~ In opcode case_labels -> dispatch opcode c = case_default c.
Proof.
  intros H. unfold dispatch.
  repeat match goal with
         | |- (if opcode =? ?label then _ else _) = _ =>
             destruct (Z.eqb_spec opcode label) as [E | _];
             [ exfalso; apply H; rewrite E;
               solve [ repeat first [ left; reflexivity | right ] ]
             | ]
         end.
  reflexivity.
Qed.

Lemma loop_body_default (cycles : Byte) (s : machine) :
  ~ In (mem s (to_Word (PC (cpu s)))) case_labels ->
  loop_body cycles s =
  case_default cycles
    (mkMachine
       (mkCPU (to_Word (PC (cpu s) + 1)) (SP (cpu s)) (regs (cpu s))
              (flags (cpu s)))
       (mem s)
       (BusRead (to_Word (PC (cpu s))) :: bus_log s)).
Proof.
  intros H. unfold loop_body, bind. rewrite fetch_program_byte_eq.
  now rewrite (dispatch_default _ _ H).
Qed.

(** X11: an opcode that is no case label costs one cycle and does nothing
    else: the pass reads the opcode byte, moves [PC] one byte on, and leaves
    the registers, the flags, the stack pointer and memory as they were. *)
Theorem unrecognised_opcode_is_nop (cycles : Byte) (s : machine) :
  ~ In (mem s (to_Word (PC (cpu s)))) case_labels ->
  loop_body cycles s =
  (sub_cycles cycles 1,
   mkMachine
     (mkCPU (to_Word (PC (cpu s) + 1)) (SP (cpu s)) (regs (cpu s))
            (flags (cpu s)))
     (mem s)
     (BusRead (to_Word (PC (cpu s))) :: bus_log s)).
Proof.
  intros H. rewrite (loop_body_default cycles s H). reflexivity.
Qed.

Lemma unrecognised_opcode_is_nop_witness :
  fst (loop_body 1 (filled_machine 0xEA)) = 0 /\
  PC (cpu (snd (loop_body 1 (filled_machine 0xEA)))) = 0x0201.
Proof.
  rewrite (unrecognised_opcode_is_nop 1 (filled_machine 0xEA)).
  - split; reflexivity.
  - vm_compute. intuition discriminate.
Defined.





(** ** The unused flag U over a whole run

    [cpu_execute] never writes P itself.  A pass changes P only through
    [cpu_set_flag], which ends by setting bit 5; the cases of the stores, of
    BCC and BCS, and the [default] case do not call it. *)
















(** ** Instruction semantics, one pass of the loop at a time *)

(** Runs a computation on a symbolic machine: each step opens the leading
    bind and rewrites the routine it finds with its equation. *)
Ltac run_step :=
  first
    [ rewrite fetch_program_byte_eq
    | rewrite bus_read_eq
    | rewrite bus_write_eq
    | rewrite cpu_set_flag_eq
    | rewrite set_NZ_flags_eq
    | rewrite cpu_read_flag_eq
    | progress cbv beta iota zeta
        delta [rd rd_A rd_X rd_Y wr_A wr_PC wr_SP wr_flags upd_cpu ret]
    | progress cbn [fst snd cpu mem bus_log PC SP regs flags A X Y
                    with_flags]
    | unfold bind at 1 ].

Ltac run := repeat run_step.

Ltac norm_words :=
  rewrite ?to_Word_idem, ?to_Word_add_l, <- ?Z.add_assoc;
  change (1 + 1) with 2; change (1 + 2) with 3.

(** The pass starts by fetching the opcode and dispatching on it. *)
Lemma loop_body_fetch (cycles : Byte) (s : machine) :
  loop_body cycles s =
  dispatch (mem s (to_Word (PC (cpu s)))) cycles
    (mkMachine
       (mkCPU (to_Word (PC (cpu s) + 1)) (SP (cpu s)) (regs (cpu s))
              (flags (cpu s)))
       (mem s)
       (BusRead (to_Word (PC (cpu s))) :: bus_log s)).
Proof. unfold loop_body, bind. now rewrite fetch_program_byte_eq. Qed.

Lemma flag_of_with_flags g p s :
  flag_of g (with_flags p s) = Z.b2z (Z.testbit p (Flags.bit g)).
Proof. apply flag_of_testbit. Qed.

Lemma flag_of_flag_write_rec f g v p s :
  flag_of g (with_flags (flag_write f v p) s) =
  if Flags.bit g =? Flags.bit Flags.U then 1
  else if Flags.bit g =? Flags.bit f then Z.b2z (negb (to_Byte v =? 0))
  else flag_of g (with_flags p s).
Proof. rewrite flag_of_flag_write, flag_of_with_flags. reflexivity. Qed.

(** Reads a flag through a stack of flag writes. *)
Ltac flag_read :=
  repeat (rewrite flag_of_flag_write_rec;
          match goal with
          | |- context [Flags.bit ?g =? Flags.bit Flags.U] =>
              let b := eval vm_compute in (Flags.bit g =? Flags.bit Flags.U)
              in change (Flags.bit g =? Flags.bit Flags.U) with b
          end;
          match goal with
          | |- context [Flags.bit ?g =? Flags.bit ?f] =>
              let b := eval vm_compute in (Flags.bit g =? Flags.bit f)
              in change (Flags.bit g =? Flags.bit f) with b
          end;
          cbv iota);
  rewrite ?flag_of_with_flags, ?c_bool_nonzero, ?bit7_nonzero.

(** X13: [LDA #imm] (opcode 0xA9) loads the operand byte into A, sets Z
    exactly when it is 0 and N to its bit 7, moves [PC] two bytes on and
    costs 2 cycles. *)
Theorem LDA_IM_spec (cycles : Byte) (s : machine) :
  mem s (to_Word (PC (cpu s))) = OPC_LDA_IM ->
  let imm := mem s (to_Word (PC (cpu s) + 1)) in
  let r := loop_body cycles s in
  is_Byte imm ->
  A (regs (cpu (snd r))) = imm /\
  flag_of Flags.Z (snd r) = Z.b2z (imm =? 0) /\
  flag_of Flags.N (snd r) = Z.b2z (Z.testbit imm 7) /\
  PC (cpu (snd r)) = to_Word (PC (cpu s) + 2) /\
  fst r = sub_cycles cycles 2.
Proof.
  intros Hop imm r Himm.
  eassert (E : r = _).
  { subst r. rewrite loop_body_fetch, Hop.
    change (dispatch OPC_LDA_IM cycles) with (case_LDA_IM cycles).
    unfold case_LDA_IM. run. norm_words. fold imm.
    rewrite (to_Byte_id imm Himm). reflexivity. }
  rewrite E. cbn [fst snd].
  split; [reflexivity | ].
  split; [flag_read; reflexivity | ].
  split; [flag_read; reflexivity | ].
  split; reflexivity.
Qed.

Lemma LDA_IM_spec_witness :
  A (regs (cpu (snd (loop_body 2 lda_im_machine)))) = 0x42.
Proof.
  apply (LDA_IM_spec 2 lda_im_machine).
  - reflexivity.
  - vm_compute. split; [discriminate | reflexivity].
Defined.

Lemma mod_256_word v : to_Word (v mod 256) = v mod 256.
Proof.
  apply to_Word_id. pose proof (Z.mod_pos_bound v 256). unfold is_Word. lia.
Qed.

Lemma zp_index v : to_Word (Z.land (to_Byte v) 0xFF) = v mod 256.
Proof.
  rewrite land_0xFF. unfold to_Byte. rewrite Z.mod_mod by lia.
  apply mod_256_word.
Qed.

Lemma zp_wrapped v : to_Byte (Z.land v 0xFF) = v mod 256.
Proof. rewrite land_0xFF. unfold to_Byte. now rewrite Z.mod_mod by lia. Qed.

Lemma zp_word v : to_Word (Z.land v 0xFF) = v mod 256.
Proof. rewrite land_0xFF. apply mod_256_word. Qed.

(** X14: [LDA zp,X] (opcode 0xB5) reads the byte at [(operand + X) mod 256]:
    the effective address never leaves page 0, whatever the operand and X.
    It is the last bus access of the pass, A receives the byte read, and the
    pass costs 4 cycles. *)
Theorem LDA_ZPX_wraps_in_zero_page (cycles : Byte) (s : machine) :
  mem s (to_Word (PC (cpu s))) = OPC_LDA_ZPX ->
  let operand := mem s (to_Word (PC (cpu s) + 1)) in
  let ea := (operand + X (regs (cpu s))) mod 256 in
  let r := loop_body cycles s in
  is_Byte (mem s ea) ->
  0 <= ea < 256 /\
  A (regs (cpu (snd r))) = mem s ea /\
  hd_error (bus_log (snd r)) = Some (BusRead ea) /\
  fst r = sub_cycles cycles 4.
Proof.
  intros Hop operand ea r Hv.
  eassert (E : r = _).
  { subst r. rewrite loop_body_fetch, Hop.
    change (dispatch OPC_LDA_ZPX cycles) with (case_LDA_ZPX cycles).
    unfold case_LDA_ZPX. run. norm_words. fold operand.
    rewrite zp_index. fold ea. rewrite (to_Byte_id _ Hv). reflexivity. }
  rewrite E. cbn [fst snd with_flags cpu regs A bus_log hd_error].
  split; [apply Z.mod_pos_bound; lia | ].
  repeat split.
Qed.

Lemma LDA_ZPX_wraps_in_zero_page_witness :
  A (regs (cpu (snd (loop_body 4 lda_zpx_machine)))) = 0x77 /\
  hd_error (bus_log (snd (loop_body 4 lda_zpx_machine)))
  = Some (BusRead 0x0001).
Proof.
  pose proof (LDA_ZPX_wraps_in_zero_page 4 lda_zpx_machine) as H.
  cbv zeta in H. destruct H as (_ & HA & Hlog & _).
  - reflexivity.
  - vm_compute. split; [discriminate | reflexivity].
  - split; [exact HA | exact Hlog].
Defined.

(** X15: [LDA (zp,X)] (opcode 0xA1) takes its pointer from page 0 with
    wrap-around: the low byte from [(operand + X) mod 256] and the high byte
    from [(operand + X + 1) mod 256], so a pointer at 0xFF has its high byte
    at 0x00.  A is loaded from the address the two bytes form, and the pass
    costs 5 cycles. *)
Theorem LDA_INDX_pointer_wraps (cycles : Byte) (s : machine) :
  mem s (to_Word (PC (cpu s))) = OPC_LDA_INDX ->
  let operand := mem s (to_Word (PC (cpu s) + 1)) in
  let ptr := (operand + X (regs (cpu s))) mod 256 in
  let lo := mem s ptr in
  let hi := mem s ((ptr + 1) mod 256) in
  let addr := lo + 256 * hi in
  let r := loop_body cycles s in
  is_Byte lo -> is_Byte hi -> is_Byte (mem s addr) ->
  A (regs (cpu (snd r))) = mem s addr /\
  firstn 3 (bus_log (snd r)) =
    [BusRead addr; BusRead ((ptr + 1) mod 256); BusRead ptr] /\
  fst r = sub_cycles cycles 5.
Proof.
  intros Hop operand ptr lo hi addr r Hlo Hhi Hv.
  assert (Haddr : is_Word addr).
  { unfold is_Byte, is_Word in *. subst addr. lia. }
  eassert (E : r = _).
  { subst r. rewrite loop_body_fetch, Hop.
    change (dispatch OPC_LDA_INDX cycles) with (case_LDA_INDX cycles).
    unfold case_LDA_INDX. run. norm_words. fold operand.
    rewrite zp_wrapped. fold ptr. rewrite !zp_word.
    rewrite (Z.mod_small ptr 256) by (apply Z.mod_pos_bound; lia).
    fold lo hi. rewrite (lor_shiftl_8 lo hi Hlo). fold addr.
    rewrite (to_Word_id addr Haddr), (to_Byte_id _ Hv). reflexivity. }
  rewrite E. cbn [fst snd with_flags cpu regs A bus_log firstn].
  repeat split.
Qed.

Lemma LDA_INDX_pointer_wraps_witness :
  A (regs (cpu (snd (loop_body 5 lda_indx_machine)))) = 0x5A /\
  firstn 3 (bus_log (snd (loop_body 5 lda_indx_machine))) =
    [BusRead 0x0300; BusRead 0x0000; BusRead 0x00FF].
Proof.
  pose proof (LDA_INDX_pointer_wraps 5 lda_indx_machine) as H.
  cbv zeta in H. destruct H as (HA & Hlog & _).
  - reflexivity.
  - vm_compute. split; [discriminate | reflexivity].
  - vm_compute. split; [discriminate | reflexivity].
  - vm_compute. split; [discriminate | reflexivity].
  - split; [exact HA | exact Hlog].
Defined.

(** X16: [STA abs,X] (opcode 0x9D) writes A to [(base + X) mod 65536] and
    to no other address, and costs 5 cycles whether or not the indexing
    crosses a page: a store pays no page-cross cycle. *)
Theorem STA_ABSX_spec (cycles : Byte) (s : machine) :
  mem s (to_Word (PC (cpu s))) = OPC_STA_ABSX ->
  let lo := mem s (to_Word (PC (cpu s) + 1)) in
  let hi := mem s (to_Word (PC (cpu s) + 2)) in
  let base := lo + 256 * hi in
  let x := X (regs (cpu s)) in
  let a := A (regs (cpu s)) in
  let addr := to_Word (base + x) in
  let r := loop_body cycles s in
  is_Byte lo -> is_Byte hi -> is_Byte x -> is_Byte a ->
  (forall k, mem (snd r) k = if k =? addr then a else mem s k) /\
  hd_error (bus_log (snd r)) = Some (BusWrite addr a) /\
  fst r = sub_cycles cycles 5.
Proof.
  intros Hop lo hi base x a addr r Hlo Hhi Hx Ha.
  assert (Hbase : is_Word base).
  { unfold is_Byte, is_Word in *. subst base. lia. }
  eassert (E : r = _).
  { subst r. rewrite loop_body_fetch, Hop.
    change (dispatch OPC_STA_ABSX cycles) with (case_STA_ABSX cycles).
    unfold case_STA_ABSX, indexed_STA_ABS, fetch_program_word.
    run. norm_words. fold lo hi x a.
    rewrite (lor_shiftl_8 lo hi Hlo). fold base.
    rewrite ?(to_Word_id base Hbase), (to_Byte_id x Hx), (to_Byte_id a Ha).
    fold addr. reflexivity. }
  rewrite E. cbn [fst snd mem bus_log hd_error].
  repeat split.
Qed.

Lemma STA_ABSX_spec_witness :
  mem (snd (loop_body 5 sta_absx_machine)) 0x0400 = 0x42 /\
  fst (loop_body 5 sta_absx_machine) = 0.
Proof.
  pose proof (STA_ABSX_spec 5 sta_absx_machine) as H.
  cbv zeta in H. destruct H as (Hm & _ & Hc).
  - reflexivity.
  - vm_compute. split; [discriminate | reflexivity].
  - vm_compute. split; [discriminate | reflexivity].
  - vm_compute. split; [discriminate | reflexivity].
  - vm_compute. split; [discriminate | reflexivity].
  - split; [ | exact Hc ]. rewrite Hm. reflexivity.
Defined.

Lemma shiftl_1_byte a : is_Byte a -> to_Word (Z.shiftl a 1) = 2 * a.
Proof.
  unfold is_Byte. intros Ha. rewrite Z.shiftl_mul_pow2 by lia.
  change (2 ^ 1) with 2. rewrite Z.mul_comm.
  apply to_Word_id. unfold is_Word. lia.
Qed.

Lemma carry_of_double a : (2 * a >? 0xFF) = (128 <=? a).
Proof.
  destruct (Z.leb_spec 128 a) as [H | H].
  - apply Z.gtb_lt. lia.
  - destruct (Z.gtb_spec (2 * a) 0xFF); [lia | reflexivity].
Qed.

(** X17: [ASL A] (opcode 0x0A) doubles the accumulator modulo 256, puts its
    old bit 7 into C, and sets Z and N from the new accumulator; [PC] moves
    one byte on and the pass costs 2 cycles. *)
Theorem ASL_ACC_spec (cycles : Byte) (s : machine) :
  mem s (to_Word (PC (cpu s))) = OPC_ASL_ACC ->
  let a := A (regs (cpu s)) in
  let a' := (2 * a) mod 256 in
  let r := loop_body cycles s in
  is_Byte a ->
  A (regs (cpu (snd r))) = a' /\
  flag_of Flags.C (snd r) = Z.b2z (128 <=? a) /\
  flag_of Flags.Z (snd r) = Z.b2z (a' =? 0) /\
  flag_of Flags.N (snd r) = Z.b2z (Z.testbit a' 7) /\
  PC (cpu (snd r)) = to_Word (PC (cpu s) + 1) /\
  fst r = sub_cycles cycles 2.
Proof.
  intros Hop a a' r Ha.
  eassert (E : r = _).
  { subst r. rewrite loop_body_fetch, Hop.
    change (dispatch OPC_ASL_ACC cycles) with (case_ASL_ACC cycles).
    unfold case_ASL_ACC. run. fold a.
    rewrite (shiftl_1_byte a Ha), zp_wrapped, carry_of_double. fold a'.
    reflexivity. }
  rewrite E. cbn [fst snd].
  split; [reflexivity | ].
  split; [flag_read; reflexivity | ].
  split; [flag_read; reflexivity | ].
  split; [flag_read; reflexivity | ].
  split; reflexivity.
Qed.

Lemma ASL_ACC_spec_witness :
  A (regs (cpu (snd (loop_body 2 asl_acc_machine)))) = 0x00 /\
  flag_of Flags.C (snd (loop_body 2 asl_acc_machine)) = 1.
Proof.
  pose proof (ASL_ACC_spec 2 asl_acc_machine) as H.
  cbv zeta in H. destruct H as (HA & HC & _).
  - reflexivity.
  - vm_compute. split; [discriminate | reflexivity].
  - split; [exact HA | exact HC].
Defined.

Lemma double_zero v : (2 * v =? 0) = (v =? 0).
Proof.
  destruct (Z.eqb_spec v 0) as [-> | H]; [reflexivity | ].
  apply Z.eqb_neq. lia.
Qed.

(** X18: [ASL abs] (opcode 0x0E) writes the doubled byte (mod 256) back to
    the address it read it from, puts the old bit 7 into C and bit 7 of the
    stored result into N.  Z is computed from the 9-bit shifted value, so it
    is set exactly when the byte read was 0: shifting 0x80 stores 0x00 and
    sets C but leaves Z clear.  The pass costs 6 cycles. *)
Theorem ASL_ABS_spec (cycles : Byte) (s : machine) :
  mem s (to_Word (PC (cpu s))) = OPC_ASL_ABS ->
  let lo := mem s (to_Word (PC (cpu s) + 1)) in
  let hi := mem s (to_Word (PC (cpu s) + 2)) in
  let addr := lo + 256 * hi in
  let v := mem s addr in
  let r := loop_body cycles s in
  is_Byte lo -> is_Byte hi -> is_Byte v ->
  (forall k, mem (snd r) k = if k =? addr then (2 * v) mod 256
                             else mem s k) /\
  flag_of Flags.C (snd r) = Z.b2z (128 <=? v) /\
  flag_of Flags.Z (snd r) = Z.b2z (v =? 0) /\
  flag_of Flags.N (snd r) = Z.b2z (Z.testbit ((2 * v) mod 256) 7) /\
  fst r = sub_cycles cycles 6.
Proof.
  intros Hop lo hi addr v r Hlo Hhi Hv.
  assert (Haddr : is_Word addr).
  { unfold is_Byte, is_Word in *. subst addr. lia. }
  eassert (E : r = _).
  { subst r. rewrite loop_body_fetch, Hop.
    change (dispatch OPC_ASL_ABS cycles) with (case_ASL_ABS cycles).
    unfold case_ASL_ABS, fetch_program_word, asl_mem_flags.
    run. norm_words. fold lo hi.
    rewrite (lor_shiftl_8 lo hi Hlo). fold addr.
    rewrite (to_Word_id addr Haddr). fold v.
    rewrite (shiftl_1_byte v Hv), zp_wrapped, carry_of_double, double_zero.
    rewrite land_0xFF. reflexivity. }
  rewrite E. cbn [fst snd with_flags mem].
  split; [reflexivity | ].
  split; [flag_read; reflexivity | ].
  split; [flag_read; reflexivity | ].
  split; [flag_read; reflexivity | reflexivity].
Qed.

Lemma ASL_ABS_spec_witness :
  mem (snd (loop_body 6 asl_abs_machine)) 0x0300 = 0x00 /\
  flag_of Flags.C (snd (loop_body 6 asl_abs_machine)) = 1 /\
  flag_of Flags.Z (snd (loop_body 6 asl_abs_machine)) = 0.
Proof.
  pose proof (ASL_ABS_spec 6 asl_abs_machine) as H.
  cbv zeta in H. destruct H as (Hm & HC & HZ & _).
  - reflexivity.
  - vm_compute. split; [discriminate | reflexivity].
  - vm_compute. split; [discriminate | reflexivity].
  - vm_compute. split; [discriminate | reflexivity].
  - split; [rewrite Hm; reflexivity | ]. split; [exact HC | exact HZ].
Defined.

Lemma read_bit_nonzero v k :
  is_Byte v -> 0 <= k < 8 ->
  negb (to_Byte (read_bit v k) =? 0) = Z.testbit v k.
Proof.
  intros Hv Hk. unfold read_bit.
  rewrite (to_Byte_id v Hv).
  rewrite (to_Byte_id k) by (unfold is_Byte; lia).
  rewrite bit_extract by lia. rewrite !to_Byte_b2z.
  destruct (Z.testbit v k); reflexivity.
Qed.

(** X19: [BIT zp] (opcode 0x24) sets Z exactly when [A AND M] is 0, copies
    bit 7 of the memory byte into N and bit 6 into V, and leaves A, X, Y and
    memory as they were; the pass costs 3 cycles. *)
Theorem BIT_ZP_spec (cycles : Byte) (s : machine) :
  mem s (to_Word (PC (cpu s))) = OPC_BIT_ZP ->
  let operand := mem s (to_Word (PC (cpu s) + 1)) in
  let m := mem s (operand mod 256) in
  let a := A (regs (cpu s)) in
  let r := loop_body cycles s in
  is_Byte m ->
  flag_of Flags.Z (snd r) = Z.b2z (Z.land a m =? 0) /\
  flag_of Flags.N (snd r) = Z.b2z (Z.testbit m 7) /\
  flag_of Flags.V (snd r) = Z.b2z (Z.testbit m 6) /\
  regs (cpu (snd r)) = regs (cpu s) /\
  mem (snd r) = mem s /\
  fst r = sub_cycles cycles 3.
Proof.
  intros Hop operand m a r Hm.
  eassert (E : r = _).
  { subst r. rewrite loop_body_fetch, Hop.
    change (dispatch OPC_BIT_ZP cycles) with (case_BIT_ZP cycles).
    unfold case_BIT_ZP. run. norm_words. fold operand.
    rewrite zp_word. fold m a. reflexivity. }
  rewrite E. cbn [fst snd with_flags cpu regs mem].
  split; [flag_read; reflexivity | ].
  split; [flag_read; now rewrite read_bit_nonzero by (assumption || lia) | ].
  split; [flag_read; now rewrite read_bit_nonzero by (assumption || lia) | ].
  repeat split.
Qed.

Lemma BIT_ZP_spec_witness :
  flag_of Flags.Z (snd (loop_body 3 bit_machine)) = 1 /\
  flag_of Flags.N (snd (loop_body 3 bit_machine)) = 1 /\
  flag_of Flags.V (snd (loop_body 3 bit_machine)) = 1 /\
  A (regs (cpu (snd (loop_body 3 bit_machine)))) = 0x0F.
Proof.
  pose proof (BIT_ZP_spec 3 bit_machine) as H.
  cbv zeta in H. destruct H as (HZ & HN & HV & HR & _).
  - reflexivity.
  - vm_compute. split; [discriminate | reflexivity].
  - split; [exact HZ | ]. split; [exact HN | ]. split; [exact HV | ].
    rewrite HR. reflexivity.
Defined.

(** ** Branches that end in [break] *)

(** The whole effect of [branch] when [PC] points at the operand. *)
Lemma branch_eq (cycles : Byte) (flag carry_val : Z) (s : machine) :
  let operand := mem s (to_Word (PC (cpu s))) in
  let next := to_Word (PC (cpu s) + 1) in
  let target := to_Word (next + to_int8 operand) in
  let taken := to_Byte flag =? to_Byte carry_val in
  branch cycles flag carry_val s =
  (sub_cycles cycles
     (if taken then (if target / 256 =? next / 256 then 3 else 4) else 2),
   mkMachine
     (mkCPU (if taken then target else next) (SP (cpu s)) (regs (cpu s))
            (flags (cpu s)))
     (mem s)
     (BusRead (to_Word (PC (cpu s))) :: bus_log s)).
Proof.
  intros operand next target taken. unfold branch. run.
  fold operand next taken. destruct taken.
  - run. rewrite to_Word_idem. fold target.
    rewrite (same_page_eqb next target) by apply to_Word_range.
    rewrite (Z.eqb_sym (next / 256)).
    destruct (target / 256 =? next / 256); reflexivity.
  - run. reflexivity.
Qed.

(** X20: BCC (0x90) and BCS (0xB0) are self-contained.  The pass reads the
    opcode and one operand byte and nothing else; the branch is taken
    exactly when C is 0 (BCC) or 1 (BCS); a branch not taken leaves [PC]
    after the operand and costs 2 cycles; a taken branch adds the operand,
    read as a signed byte, to that address (mod 65536) and costs 3 cycles,
    or 4 when the target lies in another page.  Registers, flags, stack
    pointer and memory are untouched. *)
Theorem BCC_BCS_spec (cycles : Byte) (s : machine) :
  let opcode := mem s (to_Word (PC (cpu s))) in
  let operand := mem s (to_Word (PC (cpu s) + 1)) in
  let next := to_Word (PC (cpu s) + 2) in
  let target := to_Word (next + to_int8 operand) in
  let taken :=
    flag_of Flags.C s =? (if opcode =? OPC_BCC_REL then 0 else 1) in
  let r := loop_body cycles s in
  opcode = OPC_BCC_REL \/ opcode = OPC_BCS_REL ->
  PC (cpu (snd r)) = (if taken then target else next) /\
  fst r = sub_cycles cycles
            (if taken then (if target / 256 =? next / 256 then 3 else 4)
             else 2) /\
  bus_log (snd r) =
    BusRead (to_Word (PC (cpu s) + 1)) :: BusRead (to_Word (PC (cpu s)))
    :: bus_log s /\
  regs (cpu (snd r)) = regs (cpu s) /\
  flags (cpu (snd r)) = flags (cpu s) /\
  SP (cpu (snd r)) = SP (cpu s) /\
  mem (snd r) = mem s.
Proof.
  intros opcode operand next target taken r Hop.
  assert (E : r =
    (sub_cycles cycles
       (if taken then (if target / 256 =? next / 256 then 3 else 4) else 2),
     mkMachine
       (mkCPU (if taken then target else next) (SP (cpu s)) (regs (cpu s))
              (flags (cpu s)))
       (mem s)
       (BusRead (to_Word (PC (cpu s) + 1)) :: BusRead (to_Word (PC (cpu s)))
        :: bus_log s))).
  { subst r taken. rewrite loop_body_fetch. fold opcode.
    rewrite (flag_of_testbit Flags.C s).
    destruct Hop as [Hop | Hop]; rewrite Hop.
    - change (dispatch OPC_BCC_REL cycles) with (case_BCC_REL cycles).
      unfold case_BCC_REL. run. rewrite branch_eq.
      cbn [cpu PC SP regs flags mem bus_log].
      rewrite !(to_Word_add_l (PC (cpu s) + 1) 1), to_Word_idem.
      replace (PC (cpu s) + 1 + 1) with (PC (cpu s) + 2) by lia.
      fold operand next target.
      rewrite flag_of_testbit, to_Byte_b2z. cbn [cpu flags].
      reflexivity.
    - change (dispatch OPC_BCS_REL cycles) with (case_BCS_REL cycles).
      unfold case_BCS_REL. run. rewrite branch_eq.
      cbn [cpu PC SP regs flags mem bus_log].
      rewrite !(to_Word_add_l (PC (cpu s) + 1) 1), to_Word_idem.
      replace (PC (cpu s) + 1 + 1) with (PC (cpu s) + 2) by lia.
      fold operand next target.
      rewrite flag_of_testbit, to_Byte_b2z. cbn [cpu flags].
      reflexivity. }
  rewrite E. repeat split.
Qed.

Lemma BCC_BCS_spec_witness :
  PC (cpu (snd (loop_body 3 (branch_machine OPC_BCC_REL)))) = 0x0207 /\
  fst (loop_body 3 (branch_machine OPC_BCC_REL)) = 0.
Proof.
  pose proof (BCC_BCS_spec 3 (branch_machine OPC_BCC_REL)) as H.
  cbv zeta in H. destruct H as (HPC & Hc & _).
  - left. reflexivity.
  - split; [exact HPC | exact Hc].
Defined.

(** ** BRK: vector, stack pointer and status *)

Lemma to_Byte_sub_l a b : to_Byte (to_Byte a - b) = to_Byte (a - b).
Proof. unfold to_Byte. now rewrite Zminus_mod_idemp_l. Qed.

Lemma stack_slot_not_vector sp v :
  is_Byte sp -> 0xFFFE <= v -> (v =? 0x100 + sp) = false.
Proof. unfold is_Byte. intros H Hv. apply Z.eqb_neq. lia. Qed.

(** X21: BRK (opcode 0x00) loads [PC] from the little-endian vector at
    0xFFFE/0xFFFF (the stack, confined to page 1, cannot overwrite it),
    lowers [SP] by 3 (mod 256), and costs 7 cycles.  The status byte it
    pushes, at [0x0100 + (SP - 2) mod 256], has B, I and U set; in the live
    status register I and U are set and B is clear, and C, Z, D, V and N are
    what they were. *)
Theorem BRK_vector_and_status (cycles : Byte) (s : machine) :
  mem s (to_Word (PC (cpu s))) = OPC_BRK_IMP ->
  let sp := SP (cpu s) in
  let lo := mem s 0xFFFE in
  let hi := mem s 0xFFFF in
  let r := loop_body cycles s in
  let pushed_P := mem (snd r) (0x100 + to_Byte (sp - 2)) in
  is_Byte sp -> is_Byte lo -> is_Byte hi ->
  PC (cpu (snd r)) = lo + 256 * hi /\
  SP (cpu (snd r)) = to_Byte (sp - 3) /\
  (Z.testbit pushed_P (Flags.bit Flags.B) = true /\
   Z.testbit pushed_P (Flags.bit Flags.I) = true /\
   Z.testbit pushed_P (Flags.bit Flags.U) = true) /\
  (flag_of Flags.I (snd r) = 1 /\
   flag_of Flags.B (snd r) = 0 /\
   flag_of Flags.U (snd r) = 1) /\
  (forall g, g <> Flags.I -> g <> Flags.B -> g <> Flags.U ->
             flag_of g (snd r) = flag_of g s) /\
  fst r = sub_cycles cycles 7.
Proof.
  intros Hop sp lo hi r pushed_P Hsp Hlo Hhi.
  assert (Hword : is_Word (lo + 256 * hi)).
  { unfold is_Byte, is_Word in *. lia. }
  pose proof (to_Byte_range (sp - 1)) as Hsp1.
  pose proof (to_Byte_range (to_Byte (sp - 1) - 1)) as Hsp2.
  eassert (E : r = _).
  { subst r. rewrite loop_body_fetch, Hop.
    change (dispatch OPC_BRK_IMP cycles) with (case_BRK_IMP cycles).
    rewrite case_BRK_IMP_eq by exact Hsp.
    cbn [cpu PC SP regs flags mem bus_log]. fold sp.
    rewrite !(stack_slot_not_vector _ _ Hsp2) by lia.
    rewrite !(stack_slot_not_vector _ _ Hsp1) by lia.
    rewrite !(stack_slot_not_vector _ _ Hsp) by lia.
    fold lo hi. rewrite (lor_shiftl_8 lo hi Hlo), to_Word_idem.
    rewrite (to_Word_id _ Hword).
    rewrite !to_Byte_sub_l.
    replace (to_Byte (sp - 1) - 1 - 1) with (to_Byte (sp - 1) - 2) by lia.
    rewrite to_Byte_sub_l.
    replace (sp - 1 - 1) with (sp - 2) by lia.
    replace (sp - 1 - 2) with (sp - 3) by lia.
    reflexivity. }
  subst pushed_P. rewrite E. cbn [fst snd cpu PC SP mem].
  rewrite Z.eqb_refl.
  split; [reflexivity | ]. split; [reflexivity | ].
  split.
  { rewrite !testbit_to_Byte by (cbn; lia). repeat split.
    - rewrite testbit_flag_write_same by discriminate. reflexivity.
    - rewrite testbit_flag_write_other by (cbn; lia).
      rewrite testbit_flag_write_same by discriminate. reflexivity.
    - rewrite testbit_flag_write.
      + change (Flags.bit Flags.U =? Flags.bit Flags.U) with true.
        apply orb_true_r.
      + cbn. lia. }
  split.
  { rewrite !flag_of_testbit. cbn [cpu flags]. repeat split.
    - rewrite !testbit_flag_write_other by (cbn; lia).
      rewrite testbit_flag_write_same by discriminate. reflexivity.
    - rewrite testbit_flag_write_same by discriminate. reflexivity.
    - rewrite testbit_flag_write by (cbn; lia).
      change (Flags.bit Flags.U =? Flags.bit Flags.U) with true.
      now rewrite orb_true_r. }
  split; [ | reflexivity ].
  intros g HI HB HU. rewrite !flag_of_testbit. cbn [cpu flags].
  rewrite !testbit_flag_write_other;
    try apply flag_bit_range; try reflexivity;
    destruct g; cbn; try lia; congruence.
Qed.

Lemma BRK_vector_and_status_witness :
  PC (cpu (snd (loop_body 7 brk_machine))) = 0x1234 /\
  SP (cpu (snd (loop_body 7 brk_machine))) = 0xFC.
Proof.
  pose proof (BRK_vector_and_status 7 brk_machine) as H.
  cbv zeta in H. destruct H as (HPC & HSP & _).
  - reflexivity.
  - vm_compute. split; [discriminate | reflexivity].
  - vm_compute. split; [discriminate | reflexivity].
  - vm_compute. split; [discriminate | reflexivity].
  - split; [exact HPC | exact HSP].
Defined.

(** ** The stack as a whole *)

Lemma with_SP_eq (c : CPU) :
  is_Byte (SP c) -> mkCPU (PC c) (to_Byte (SP c - 0)) (regs c) (flags c) = c.
Proof.
  intros H. rewrite Z.sub_0_r, (to_Byte_id _ H). destruct c; reflexivity.
Qed.

Lemma push_all_eq (l : list Z) : forall (s : machine),
  is_Byte (SP (cpu s)) ->
  cpu (snd (push_all l s)) =
    mkCPU (PC (cpu s)) (to_Byte (SP (cpu s) - Z.of_nat (length l)))
          (regs (cpu s)) (flags (cpu s)) /\
  mem (snd (push_all l s)) = push_mem l (SP (cpu s)) (mem s).
Proof.
  induction l as [| v l IH]; intros s Hsp.
  - cbn [push_all ret snd length Z.of_nat push_mem].
    split; [symmetry; now apply with_SP_eq | reflexivity].
  - cbn [push_all push_mem length]. unfold bind.
    rewrite stack_push_eq by exact Hsp.
    match goal with
    | |- context [push_all l ?s1] =>
        destruct (IH s1) as [Hc Hm]; [cbn; apply to_Byte_range | ]
    end.
    rewrite Hc, Hm. cbn [cpu PC SP regs flags mem].
    rewrite to_Byte_sub_l. split; [ | reflexivity ].
    f_equal. f_equal. lia.
Qed.

Lemma push_mem_outside_page_1 (l : list Z) : forall sp m a,
  is_Byte sp -> ~ (0x100 <= a <= 0x1FF) -> push_mem l sp m a = m a.
Proof.
  induction l as [| v l IH]; intros sp m a Hsp Ha; cbn [push_mem].
  - reflexivity.
  - rewrite IH by (try apply to_Byte_range; assumption).
    replace (a =? 0x100 + sp) with false; [reflexivity | ].
    symmetry. apply Z.eqb_neq. unfold is_Byte in Hsp. lia.
Qed.

(** X22: however many bytes are pushed, the stack stays in page 1: every
    memory byte outside 0x0100..0x01FF is what it was, and [SP] has gone
    down by the number of pushes, modulo 256. *)
Theorem push_all_stays_in_page_1 (l : list Z) (s : machine) :
  is_Byte (SP (cpu s)) ->
  (forall a, ~ (0x100 <= a <= 0x1FF) ->
             mem (exec (push_all l) s) a = mem s a) /\
  SP (cpu (exec (push_all l) s))
  = to_Byte (SP (cpu s) - Z.of_nat (length l)).
Proof.
  intros Hsp. unfold exec.
  destruct (push_all_eq l s Hsp) as [Hc Hm]. rewrite Hc, Hm. split.
  - intros a Ha. now apply push_mem_outside_page_1.
  - reflexivity.
Qed.

Lemma push_all_stays_in_page_1_witness :
  SP (cpu (exec (push_all [0x11; 0x22; 0x33]) power_on)) = 0xFD.
Proof.
  apply (push_all_stays_in_page_1 [0x11; 0x22; 0x33] power_on).
  vm_compute. split; [discriminate | reflexivity].
Defined.

Lemma to_Byte_add_l a b : to_Byte (to_Byte a + b) = to_Byte (a + b).
Proof. unfold to_Byte. now rewrite Z.add_mod_idemp_l by lia. Qed.

Lemma pop_values_cons n sp m :
  pop_values (S n) sp m =
  m (0x100 + to_Byte (sp + 1)) :: pop_values n (to_Byte (sp + 1)) m.
Proof.
  unfold pop_values. cbn [seq map]. f_equal.
  rewrite <- seq_shift, map_map. apply map_ext. intros i.
  rewrite to_Byte_add_l. do 3 f_equal. lia.
Qed.

Lemma pop_values_snoc n sp m :
  pop_values (S n) sp m =
  pop_values n sp m ++ [m (0x100 + to_Byte (sp + Z.of_nat (S n)))].
Proof. unfold pop_values. rewrite seq_S, map_app. reflexivity. Qed.

Lemma pop_n_eq (n : nat) : forall (s : machine),
  is_Byte (SP (cpu s)) ->
  fst (pop_n n s) = pop_values n (SP (cpu s)) (mem s) /\
  cpu (snd (pop_n n s)) =
    mkCPU (PC (cpu s)) (to_Byte (SP (cpu s) + Z.of_nat n))
          (regs (cpu s)) (flags (cpu s)) /\
  mem (snd (pop_n n s)) = mem s.
Proof.
  induction n as [| n IH]; intros s Hsp.
  - cbn [pop_n ret fst snd Z.of_nat]. rewrite Z.add_0_r.
    rewrite (to_Byte_id _ Hsp). repeat split. destruct (cpu s); reflexivity.
  - cbn [pop_n]. unfold bind. rewrite stack_pop_eq.
    match goal with
    | |- context [pop_n n ?s1] =>
        destruct (IH s1) as (Hv & Hc & Hm); [cbn; apply to_Byte_range | ];
        destruct (pop_n n s1) as [l s2]
    end.
    cbn [fst snd ret cpu PC SP regs flags mem] in *.
    rewrite Hv, Hc, Hm, pop_values_cons, to_Byte_add_l.
    repeat split. do 2 f_equal. lia.
Qed.

Lemma byte_sub_neq sp k :
  is_Byte sp -> 1 <= k <= 255 -> to_Byte (sp - k) <> sp.
Proof.
  unfold is_Byte, to_Byte. intros Hsp Hk.
  Z.div_mod_to_equations. lia.
Qed.

(** A slot that none of the pushes uses keeps its byte. *)
Lemma push_mem_untouched (l : list Z) : forall sp m a,
  (forall i, (i < length l)%nat -> a <> 0x100 + to_Byte (sp - Z.of_nat i)) ->
  is_Byte sp ->
  push_mem l sp m a = m a.
Proof.
  induction l as [| v l IH]; intros sp m a Hfree Hsp; cbn [push_mem].
  - reflexivity.
  - rewrite IH; [ | | apply to_Byte_range ].
    + replace (a =? 0x100 + sp) with false; [reflexivity | ].
      symmetry. apply Z.eqb_neq.
      specialize (Hfree 0%nat ltac:(cbn; lia)).
      cbn [Z.of_nat] in Hfree. rewrite Z.sub_0_r in Hfree.
      now rewrite (to_Byte_id sp Hsp) in Hfree.
    + intros i Hi. rewrite to_Byte_sub_l.
      specialize (Hfree (S i) ltac:(cbn [length]; lia)).
      replace (sp - 1 - Z.of_nat i) with (sp - Z.of_nat (S i)) by lia.
      exact Hfree.
Qed.

Lemma push_then_pop_values (l : list Z) : forall sp m,
  is_Byte sp -> (length l <= 256)%nat ->
  pop_values (length l) (to_Byte (sp - Z.of_nat (length l)))
             (push_mem l sp m)
  = map to_Byte (rev l).
Proof.
  induction l as [| v l IH]; intros sp m Hsp Hlen.
  - reflexivity.
  - cbn [length] in Hlen |- *. cbn [push_mem rev].
    rewrite pop_values_snoc, map_app. cbn [map]. f_equal.
    + replace (to_Byte (sp - Z.of_nat (S (length l))))
        with (to_Byte (to_Byte (sp - 1) - Z.of_nat (length l)))
        by (rewrite to_Byte_sub_l; f_equal; lia).
      apply IH; [apply to_Byte_range | lia].
    + rewrite to_Byte_add_l.
      replace (sp - Z.of_nat (S (length l)) + Z.of_nat (S (length l)))
        with sp by lia.
      rewrite (to_Byte_id sp Hsp).
      rewrite push_mem_untouched; [ | | apply to_Byte_range ].
      * now rewrite Z.eqb_refl.
      * intros i Hi. rewrite to_Byte_sub_l.
        replace (sp - 1 - Z.of_nat i) with (sp - (1 + Z.of_nat i)) by lia.
        pose proof (byte_sub_neq sp (1 + Z.of_nat i) Hsp ltac:(lia)). lia.
Qed.

Lemma map_to_Byte_id (l : list Z) : Forall is_Byte l -> map to_Byte l = l.
Proof.
  induction 1 as [| v l Hv _ IH]; cbn [map]; [reflexivity | ].
  now rewrite (to_Byte_id v Hv), IH.
Qed.

(** X23: the stack is last-in first-out for up to 256 bytes: pushing the
    bytes of a list and popping as many returns them in reverse order and
    leaves the CPU, and so [SP], as it was, from any starting [SP] (the
    pointer wraps from 0x00 to 0xFF). *)
Theorem stack_LIFO (l : list Z) (s : machine) :
  is_Byte (SP (cpu s)) -> (length l <= 256)%nat -> Forall is_Byte l ->
  eval (push_all l;; pop_n (length l)) s = rev l /\
  cpu (exec (push_all l;; pop_n (length l)) s) = cpu s.
Proof.
  intros Hsp Hlen Hl. unfold eval, exec, bind.
  destruct (push_all_eq l s Hsp) as [Hc Hm].
  destruct (push_all l s) as [u s1]. cbn [snd] in Hc, Hm.
  assert (Hsp1 : is_Byte (SP (cpu s1)))
    by (rewrite Hc; cbn; apply to_Byte_range).
  destruct (pop_n_eq (length l) s1 Hsp1) as (Hv & Hc2 & _).
  rewrite Hv, Hc2, Hm, Hc. cbn [cpu PC SP regs flags]. split.
  - rewrite push_then_pop_values by assumption.
    apply map_to_Byte_id. now apply Forall_rev.
  - rewrite to_Byte_add_l.
    replace (SP (cpu s) - Z.of_nat (length l) + Z.of_nat (length l))
      with (SP (cpu s)) by lia.
    rewrite (to_Byte_id _ Hsp). destruct (cpu s); reflexivity.
Qed.

Lemma stack_LIFO_witness :
  eval (push_all [0x11; 0x22; 0x33];; pop_n 3) power_on
  = [0x33; 0x22; 0x11].
Proof.
  apply (stack_LIFO [0x11; 0x22; 0x33] power_on).
  - vm_compute. split; [discriminate | reflexivity].
  - cbn. lia.
  - repeat constructor; vm_compute; discriminate.
Defined.

(** ** The two cores *)

(** X24: on every load and every store opcode the earlier core and the
    current core do the same thing: one pass of either loop returns the same
    budget and the same machine, bus history included.  (The earlier core
    charges the cycles before it sets the flags, which cannot be seen.) *)
Theorem cores_agree_on_loads_and_stores (cycles : Byte) (s : machine) :
  In (mem s (to_Word (PC (cpu s)))) (LDA_labels ++ STA_labels) ->
  Part000.loop_body cycles s = loop_body cycles s.
Proof.
  intros H. unfold Part000.loop_body, loop_body, bind.
  rewrite fetch_program_byte_eq.
  cbn [LDA_labels STA_labels app In] in H.
  repeat (destruct H as [<- | H]; [reflexivity | ]).
  contradiction.
Qed.

Lemma cores_agree_on_loads_and_stores_witness :
  Part000.loop_body 5 lda_absx_machine = loop_body 5 lda_absx_machine.
Proof.
  apply (cores_agree_on_loads_and_stores 5 lda_absx_machine).
  vm_compute. do 4 right. left. reflexivity.
Defined.

(** ** ADC immediate: the overflow flag *)

Lemma testbit7_land_0x80 x : (Z.land x 0x80 =? 0) = negb (Z.testbit x 7).
Proof. rewrite land_0x80. destruct (Z.testbit x 7); reflexivity. Qed.

Lemma adc_overflow_nonzero a m r :
  negb (to_Byte (adc_overflow a m r) =? 0) =
  xorb (Z.testbit a 7) (Z.testbit r 7) &&
  xorb (Z.testbit m 7) (Z.testbit r 7).
Proof.
  unfold adc_overflow. rewrite c_bool_nonzero, testbit7_land_0x80.
  now rewrite negb_involutive, Z.land_spec, !Z.lxor_spec.
Qed.

(** The flags of a machine depend on its status register only. *)
Lemma flag_of_after_fetch g s :
  flag_of g (mkMachine
               (mkCPU (to_Word (PC (cpu s) + 1)) (SP (cpu s)) (regs (cpu s))
                      (flags (cpu s)))
               (mem s) (BusRead (to_Word (PC (cpu s))) :: bus_log s))
  = flag_of g s.
Proof. reflexivity. Qed.

(** X25: [ADC #imm] (opcode 0x69) of the current core leaves in A the sum
    of A, the operand and the carry, modulo 256, sets C exactly when that
    sum exceeds 0xFF, and sets V exactly when A and the operand have the
    same sign (bit 7) and the sum has the other one; [PC] moves two bytes on
    and the pass costs 2 cycles. *)
Theorem ADC_IM_sum_carry_overflow (cycles : Byte) (s : machine) :
  mem s (to_Word (PC (cpu s))) = OPC_ADC_IM ->
  let a := A (regs (cpu s)) in
  let m := mem s (to_Word (PC (cpu s) + 1)) in
  let sum := a + m + flag_of Flags.C s in
  let r := loop_body cycles s in
  is_Byte a -> is_Byte m ->
  A (regs (cpu (snd r))) = sum mod 256 /\
  flag_of Flags.C (snd r) = Z.b2z (sum >? 0xFF) /\
  flag_of Flags.V (snd r) =
    Z.b2z (xorb (Z.testbit a 7) (Z.testbit sum 7) &&
           xorb (Z.testbit m 7) (Z.testbit sum 7)) /\
  PC (cpu (snd r)) = to_Word (PC (cpu s) + 2) /\
  fst r = sub_cycles cycles 2.
Proof.
  intros Hop a m sum r Ha Hm.
  pose proof (adc_sum_word a m s Ha Hm) as Hr. fold sum in Hr.
  eassert (E : r = _).
  { subst r. rewrite loop_body_fetch, Hop.
    change (dispatch OPC_ADC_IM cycles) with (case_ADC_IM cycles).
    rewrite case_ADC_IM_eq. cbn [cpu PC SP regs flags mem bus_log A X Y].
    rewrite flag_of_after_fetch. norm_words. fold a m.
    replace (a + (m + flag_of Flags.C s)) with sum by (subst sum; lia).
    rewrite (to_Word_id sum Hr), zp_wrapped. reflexivity. }
  rewrite E. cbn [fst snd cpu PC regs A].
  split; [reflexivity | ].
  rewrite !flag_of_testbit. cbn [cpu flags].
  split.
  { rewrite testbit_flag_write_other by (cbn; lia).
    rewrite testbit_flag_write_same by discriminate.
    now rewrite c_bool_nonzero. }
  split.
  { rewrite testbit_flag_write_same by discriminate.
    now rewrite adc_overflow_nonzero. }
  split; reflexivity.
Qed.

Lemma ADC_IM_sum_carry_overflow_witness :
  A (regs (cpu (snd (loop_body 2 adc_machine)))) = 0x00 /\
  flag_of Flags.C (snd (loop_body 2 adc_machine)) = 1.
Proof.
  pose proof (ADC_IM_sum_carry_overflow 2 adc_machine) as H.
  cbv zeta in H. destruct H as (HA & HC & _).
  - reflexivity.
  - vm_compute. split; [discriminate | reflexivity].
  - vm_compute. split; [discriminate | reflexivity].
  - split; [exact HA | exact HC].
Defined.

(** X28: [ADC #imm] of the earlier core does the same to A, C and V and, in
    addition, sets Z exactly when the new A is 0 and N to bit 7 of the new
    A. *)
Theorem Part000_ADC_IM_spec (cycles : Byte) (s : machine) :
  mem s (to_Word (PC (cpu s))) = OPC_ADC_IM ->
  let a := A (regs (cpu s)) in
  let m := mem s (to_Word (PC (cpu s) + 1)) in
  let sum := a + m + flag_of Flags.C s in
  let r := Part000.loop_body cycles s in
  is_Byte a -> is_Byte m ->
  A (regs (cpu (snd r))) = sum mod 256 /\
  flag_of Flags.C (snd r) = Z.b2z (sum >? 0xFF) /\
  flag_of Flags.Z (snd r) = Z.b2z (sum mod 256 =? 0) /\
  flag_of Flags.N (snd r) = Z.b2z (Z.testbit (sum mod 256) 7) /\
  flag_of Flags.V (snd r) =
    Z.b2z (xorb (Z.testbit a 7) (Z.testbit sum 7) &&
           xorb (Z.testbit m 7) (Z.testbit sum 7)) /\
  fst r = sub_cycles cycles 2.
Proof.
  intros Hop a m sum r Ha Hm.
  pose proof (adc_sum_word a m s Ha Hm) as Hr. fold sum in Hr.
  eassert (E : r = _).
  { subst r. unfold Part000.loop_body, bind.
    rewrite fetch_program_byte_eq, Hop.
    change (Part000.dispatch OPC_ADC_IM cycles)
      with (Part000.case_ADC_IM cycles).
    rewrite Part000_case_ADC_IM_eq.
    cbn [cpu PC SP regs flags mem bus_log A X Y].
    rewrite flag_of_after_fetch. norm_words. fold a m.
    replace (a + (m + flag_of Flags.C s)) with sum by (subst sum; lia).
    rewrite (to_Word_id sum Hr), zp_wrapped, land_0xFF. reflexivity. }
  rewrite E. cbn [fst snd cpu PC regs A].
  split; [reflexivity | ].
  rewrite !flag_of_testbit. cbn [cpu flags].
  split.
  { rewrite !testbit_flag_write_other by (cbn; lia).
    rewrite testbit_flag_write_same by discriminate.
    now rewrite c_bool_nonzero. }
  split.
  { rewrite !testbit_flag_write_other by (cbn; lia).
    rewrite testbit_flag_write_same by discriminate.
    now rewrite c_bool_nonzero. }
  split.
  { rewrite !testbit_flag_write_other by (cbn; lia).
    rewrite testbit_flag_write_same by discriminate.
    rewrite land_0x80_nonzero. change 256 with (2 ^ 8).
    now rewrite Z.mod_pow2_bits_low by lia. }
  split; [ | reflexivity ].
  rewrite testbit_flag_write_same by discriminate.
  now rewrite adc_overflow_nonzero.
Qed.

Lemma Part000_ADC_IM_spec_witness :
  A (regs (cpu (snd (Part000.loop_body 2 adc_machine)))) = 0x00 /\
  flag_of Flags.Z (snd (Part000.loop_body 2 adc_machine)) = 1 /\
  flag_of Flags.N (snd (Part000.loop_body 2 adc_machine)) = 0.
Proof.
  pose proof (Part000_ADC_IM_spec 2 adc_machine) as H.
  cbv zeta in H. destruct H as (HA & _ & HZ & HN & _).
  - reflexivity.
  - vm_compute. split; [discriminate | reflexivity].
  - vm_compute. split; [discriminate | reflexivity].
  - split; [exact HA | ]. split; [exact HZ | exact HN].
Defined.

(** ** AND immediate and LDA (zp),Y *)

Lemma land_byte a b : is_Byte a -> to_Byte (Z.land a b) = Z.land a b.
Proof.
  intros Ha. unfold to_Byte. rewrite <- land_0xFF.
  rewrite <- Z.land_assoc, (Z.land_comm b), Z.land_assoc.
  rewrite (land_0xFF a). now rewrite (Z.mod_small a 256) by exact Ha.
Qed.

(** X26: [AND #imm] (opcode 0x29) replaces A by the bitwise AND of A and the
    operand, sets Z exactly when the result is 0 and N to its bit 7, and
    costs 2 cycles. *)
Theorem AND_IM_spec (cycles : Byte) (s : machine) :
  mem s (to_Word (PC (cpu s))) = OPC_AND_IM ->
  let imm := mem s (to_Word (PC (cpu s) + 1)) in
  let a' := Z.land (A (regs (cpu s))) imm in
  let r := loop_body cycles s in
  is_Byte (A (regs (cpu s))) ->
  A (regs (cpu (snd r))) = a' /\
  flag_of Flags.Z (snd r) = Z.b2z (a' =? 0) /\
  flag_of Flags.N (snd r) = Z.b2z (Z.testbit a' 7) /\
  fst r = sub_cycles cycles 2.
Proof.
  intros Hop imm a' r Ha.
  eassert (E : r = _).
  { subst r. rewrite loop_body_fetch, Hop.
    change (dispatch OPC_AND_IM cycles) with (case_AND_IM cycles).
    unfold case_AND_IM. run. norm_words. fold imm.
    rewrite (land_byte _ imm Ha). fold a'. reflexivity. }
  rewrite E. cbn [fst snd].
  split; [reflexivity | ].
  split; [flag_read; reflexivity | ].
  split; [flag_read; reflexivity | reflexivity].
Qed.

Lemma AND_IM_spec_witness :
  A (regs (cpu (snd (loop_body 2 and_im_machine)))) = 0x0F.
Proof.
  apply (AND_IM_spec 2 and_im_machine).
  - reflexivity.
  - vm_compute. split; [discriminate | reflexivity].
Defined.

(** X27: [LDA (zp),Y] (opcode 0xB1) reads its pointer at the operand and at
    [(operand + 1) mod 256], adds Y to it (mod 65536), loads A from there,
    and costs 5 cycles, or 6 when the addition changes the high byte of the
    address. *)
Theorem LDA_INDY_page_cross (cycles : Byte) (s : machine) :
  mem s (to_Word (PC (cpu s))) = OPC_LDA_INDY ->
  let operand := mem s (to_Word (PC (cpu s) + 1)) in
  let lo := mem s operand in
  let hi := mem s ((operand + 1) mod 256) in
  let base := lo + 256 * hi in
  let y := Y (regs (cpu s)) in
  let addr := to_Word (base + y) in
  let penalty := if addr / 256 =? base / 256 then 0 else 1 in
  let r := loop_body cycles s in
  is_Byte operand -> is_Byte lo -> is_Byte hi -> is_Byte (mem s addr) ->
  A (regs (cpu (snd r))) = mem s addr /\
  firstn 3 (bus_log (snd r)) =
    [BusRead addr; BusRead ((operand + 1) mod 256); BusRead operand] /\
  fst r = sub_cycles cycles (5 + penalty).
Proof.
  intros Hop operand lo hi base y addr penalty r Hop8 Hlo Hhi Hv.
  assert (Hbase : is_Word base).
  { unfold is_Byte, is_Word in *. subst base. lia. }
  assert (Hopw : to_Word operand = operand).
  { apply to_Word_id. unfold is_Byte, is_Word in *. lia. }
  eassert (E : r = _).
  { subst r. rewrite loop_body_fetch, Hop.
    change (dispatch OPC_LDA_INDY cycles) with (case_LDA_INDY cycles).
    unfold case_LDA_INDY. run. norm_words. fold operand.
    rewrite zp_word, Hopw. fold lo hi y.
    rewrite (lor_shiftl_8 lo hi Hlo). fold base.
    rewrite ?(to_Word_id base Hbase). fold addr.
    rewrite (to_Byte_id _ Hv).
    rewrite (same_page_eqb addr base (to_Word_range _) Hbase).
    replace (to_Byte (c_bool (negb (addr / 256 =? base / 256))))
      with penalty
      by (subst penalty; destruct (addr / 256 =? base / 256); reflexivity).
    reflexivity. }
  rewrite E. cbn [fst snd with_flags cpu regs A bus_log firstn].
  repeat split.
Qed.

Lemma LDA_INDY_page_cross_witness :
  A (regs (cpu (snd (loop_body 6 lda_indy_machine)))) = 0x66 /\
  fst (loop_body 6 lda_indy_machine) = 0.
Proof.
  pose proof (LDA_INDY_page_cross 6 lda_indy_machine) as H.
  cbv zeta in H. destruct H as (HA & _ & Hc).
  - reflexivity.
  - vm_compute. split; [discriminate | reflexivity].
  - vm_compute. split; [discriminate | reflexivity].
  - vm_compute. split; [discriminate | reflexivity].
  - vm_compute. split; [discriminate | reflexivity].
  - split; [exact HA | exact Hc].
Defined.
